(** * Video search-and-upload bot: a shallow embedding of [main.py]

    The development follows the layout of the program:
    - [hashlib]: the streaming SHA-256 object used by
      [VideoUploader.generate_file_hash];
    - [Py]: Python values, exceptions and the computations in which the
      methods are written: a computation reads the world, returns or
      raises, and leaves a new world and the events it caused;
    - [Str] and [os]: the string and file operations the program calls;
    - [VideoDownloader]: [find_video_links], [download_video],
      [download_videos];
    - [VideoUploader]: [generate_file_hash], [get_upload_url],
      [upload_video], [create_post], [upload_video_to_socialverse];
    - [Main]: the retry loop and the upload loop of [main].

    The browser, the content-download library and the remote API are
    parameters: a script of search outcomes in the world, and the
    functions of an [environment].

    Definitions come first, then the vocabulary and the scenarios of the
    properties, then the properties. *)

From Stdlib Require Import List String Ascii ZArith NArith Lia Bool Arith.
From Stdlib.Strings Require Import Byte.
From Stdlib Require Import Decimal DecimalString DecimalNat Sorted.
From Equations Require Import Equations.
Import ListNotations.

Set Warnings "-register-all".

Local Open Scope string_scope.
Local Open Scope list_scope.

Definition inspect {A : Type} (a : A) : {b : A | a = b} := exist _ a eq_refl.

(** ** hashlib.sha256

    The hash object of Python's [hashlib]: created empty, fed with
    [update], read with [hexdigest].  The object keeps the eight working
    words, the bytes of the block that is not yet complete and the number
    of bytes fed so far (FIPS 180-4, section 6.2). *)

Module hashlib.

Local Open Scope Z_scope.

Definition bytes := list byte.

Definition w32 (x : Z) : Z := x mod 2 ^ 32.
Definition add32 (x y : Z) : Z := w32 (x + y).
Definition rotr (n x : Z) : Z := w32 (Z.lor (Z.shiftr x n) (Z.shiftl x (32 - n))).
Definition shr (n x : Z) : Z := Z.shiftr x n.
Definition not32 (x : Z) : Z := Z.lxor x 0xFFFFFFFF.

Definition Ch (x y z : Z) : Z := Z.lxor (Z.land x y) (Z.land (not32 x) z).
Definition Maj (x y z : Z) : Z :=
  Z.lxor (Z.lxor (Z.land x y) (Z.land x z)) (Z.land y z).
Definition Sigma0 (x : Z) : Z := Z.lxor (Z.lxor (rotr 2 x) (rotr 13 x)) (rotr 22 x).
Definition Sigma1 (x : Z) : Z := Z.lxor (Z.lxor (rotr 6 x) (rotr 11 x)) (rotr 25 x).
Definition sigma0 (x : Z) : Z := Z.lxor (Z.lxor (rotr 7 x) (rotr 18 x)) (shr 3 x).
Definition sigma1 (x : Z) : Z := Z.lxor (Z.lxor (rotr 17 x) (rotr 19 x)) (shr 10 x).

(** The constants of the standard are fractional parts of roots of the
    first primes: the first 32 bits of the cube roots of the first 64
    primes for the round constants, of the square roots of the first 8
    primes for the initial hash value. *)
Definition is_prime (n : nat) : bool :=
  (2 <=? n)%nat && forallb (fun d => negb (n mod d =? 0)%nat) (seq 2 (n - 2)).

Definition primes : list Z :=
  Eval vm_compute in map Z.of_nat (filter is_prime (seq 2 310)).

(** The largest [r] below [2 ^ 36] with [r ^ 3 <= n], found bit by bit. *)
Definition cube_root (n : Z) : Z :=
  fold_left (fun r k => let r' := r + 2 ^ Z.of_nat k in
                        if r' * r' * r' <=? n then r' else r)
            (List.rev (seq 0 36)) 0.

Definition K : list Z :=
  Eval vm_compute in map (fun p => w32 (cube_root (p * 2 ^ 96))) primes.

Definition H0 : list Z :=
  Eval vm_compute in map (fun p => w32 (Z.sqrt (p * 2 ^ 64))) (firstn 8 primes).

Definition byte_val (b : byte) : Z := Z.of_N (Byte.to_N b).

Definition byte_of_Z (z : Z) : byte :=
  match Byte.of_N (Z.to_N (z mod 256)) with
  | Some b => b
  | None => x00
  end.

(** Big-endian words of a block. *)
Fixpoint words_of (bs : bytes) : list Z :=
  match bs with
  | b0 :: b1 :: b2 :: b3 :: rest =>
      (((byte_val b0 * 256 + byte_val b1) * 256 + byte_val b2) * 256 + byte_val b3)
      :: words_of rest
  | _ => []
  end.

Definition bytes_of_word (w : Z) : bytes :=
  [ byte_of_Z (Z.shiftr w 24); byte_of_Z (Z.shiftr w 16);
    byte_of_Z (Z.shiftr w 8); byte_of_Z w ].

(** The message schedule is kept as a window of sixteen words: the head is
    W[t], and W[t+16] is appended when the window moves. *)
Definition next_word (w : list Z) : Z :=
  add32 (add32 (sigma1 (nth 14 w 0)) (nth 9 w 0))
        (add32 (sigma0 (nth 1 w 0)) (nth 0 w 0)).

Definition round (st : list Z * list Z) (k : Z) : list Z * list Z :=
  let '(regs, w) := st in
  match regs with
  | [a; b; c; d; e; f; g; h] =>
      let t1 := add32 (add32 (add32 h (Sigma1 e)) (add32 (Ch e f g) k)) (nth 0 w 0) in
      let t2 := add32 (Sigma0 a) (Maj a b c) in
      ([add32 t1 t2; a; b; c; add32 d t1; e; f; g], tl w ++ [next_word w])
  | _ => st
  end.

Definition compress (h : list Z) (block : bytes) : list Z :=
  let '(regs, _) := fold_left round K (h, words_of block) in
  map (fun p => add32 (fst p) (snd p)) (combine h regs).

Record sha256 : Type := mk_sha256 {
  chaining : list Z;
  pending : bytes;
  fed : Z
}.

Definition new : sha256 := mk_sha256 H0 [] 0.

(** Consume every complete block of [data] with the block function
    [step]; what is left over stays pending.  The block size is [S n]
    bytes. *)
Equations? absorb_blocks (step : list Z -> bytes -> list Z) (n : nat)
    (h : list Z) (data : bytes) : list Z * bytes
  by wf (List.length data) lt :=
  absorb_blocks step n h data with le_lt_dec (S n) (List.length data) := {
    | left _ := absorb_blocks step n (step h (firstn (S n) data)) (skipn (S n) data)
    | right _ := (h, data) }.
Proof.
  change (List.length (skipn (S n) data) < List.length data)%nat.
  rewrite List.length_skipn. lia.
Qed.

(** SHA-256 has 64-byte blocks. *)
Definition absorb : list Z -> bytes -> list Z * bytes :=
  absorb_blocks compress 63.

Definition update (s : sha256) (data : bytes) : sha256 :=
  let '(h, rest) := absorb (chaining s) (pending s ++ data) in
  mk_sha256 h rest (fed s + Z.of_nat (List.length data)).

Definition length_field (nbits : Z) : bytes :=
  map (fun i => byte_of_Z (Z.shiftr nbits (8 * (7 - Z.of_nat i)))) (seq 0 8).

Definition padding (s : sha256) : bytes :=
  let zeros := Z.to_nat ((55 - Z.of_nat (List.length (pending s))) mod 64) in
  x80 :: repeat x00 zeros ++ length_field (8 * fed s).

Definition digest (s : sha256) : bytes :=
  let '(h, _) := absorb (chaining s) (pending s ++ padding s) in
  List.concat (map bytes_of_word h).

Definition hex_digit (n : Z) : ascii :=
  nth (Z.to_nat n) (list_ascii_of_string "0123456789abcdef") "0"%char.

Definition hex_of_byte (b : byte) : string :=
  String (hex_digit (byte_val b / 16)) (String (hex_digit (byte_val b mod 16)) "").

Definition hexdigest (s : sha256) : string :=
  String.concat "" (map hex_of_byte (digest s)).

(** [hashlib.sha256(data).hexdigest()]: the digest of [data] fed at once. *)
Definition sha256_hexdigest (data : bytes) : string :=
  hexdigest (update new data).

End hashlib.

(** ** Python values, exceptions and effects *)

Module Py.

Definition bytes := hashlib.bytes.

(** The values a JSON body decodes to. *)
Inductive pyval : Type :=
| PNone
| PBool (v : bool)
| PInt (v : Z)
| PStr (v : string)
| PList (v : list pyval)
| PDict (v : list (string * pyval)).

(** A [requests.Response]: status line, raw text and what [json()]
    decodes from it ([None] when the body is not JSON). *)
Record response : Type := mk_response {
  status_code : Z;
  text : string;
  decoded : option pyval
}.

(** Subclasses of [requests.RequestException] that the calls can raise. *)
Inductive request_error : Type :=
| HTTPError | ConnectionError | Timeout | MissingSchema | JSONDecodeError.

(** Exceptions.  Every [requests.RequestException] carries a [response]
    attribute (possibly [None]); the built-in exceptions have no such
    attribute.  Only subclasses of [Exception] are modelled, so
    [except Exception] catches all of them. *)
Inductive exn : Type :=
| RequestException (kind : request_error) (msg : string) (resp : option response)
| ValueError (msg : string)
| AttributeError (msg : string)
| IndexError (msg : string)
| OSError (msg : string)
| WebDriverException (msg : string)
| InstaloaderException (msg : string).

Definition is_RequestException (e : exn) : bool :=
  match e with RequestException _ _ _ => true | _ => false end.

Definition is_Exception (e : exn) : bool := true.

Definition str_of_exn (e : exn) : string :=
  match e with
  | RequestException _ m _ | ValueError m | AttributeError m | IndexError m
  | OSError m | WebDriverException m | InstaloaderException m => m
  end.

Inductive log_level : Type := INFO | WARNING | ERROR.

(** What a link element of the rendered result page answers to
    [get_attribute('href')]. *)
Inductive link_element : Type :=
| Href (href : option string)
| StaleElement (e : exn).

(** What one round trip to the search surface gives: the steps before the
    result list is read fail, or the list of anchor elements is found. *)
Inductive search_outcome : Type :=
| SearchFails (e : exn)
| SearchResults (links : list link_element).

(** The file system: path and content of every file, in the order in
    which a directory listing reports them. *)
Definition filesystem : Type := list (string * bytes).

(** Observable actions, in program order. *)
Inductive event : Type :=
| Log (level : log_level) (msg : string)
| Print (msg : string)
| DriverGet (url : string)
| DriverQuit
| InstaloaderDownload (shortcode : string)
| HttpGet (url : string) (hash : string) (file_size : Z)
| HttpPut (url : pyval) (body : bytes)
| HttpPost (url : string) (title : string) (hash : pyval) (public : bool) (category_id : Z)
| Sleep (seconds : Z).

(** The mutable world: the files, and what the search surface will answer
    to the next queries. *)
Record world : Type := mk_world {
  files : filesystem;
  searches : list search_outcome
}.

Inductive http_outcome : Type :=
| Responds (r : response)
| Fails (kind : request_error) (msg : string).

(** The collaborators: the content-download library and the remote API. *)
Record environment : Type := mk_environment {
  download_post : string -> filesystem -> exn + filesystem;
  remote_get : string -> string -> Z -> http_outcome;
  remote_put : string -> bytes -> http_outcome;
  remote_post : string -> string -> pyval -> bool -> Z -> http_outcome
}.

Inductive result (A : Type) : Type :=
| Return (a : A)
| Raise (e : exn).
Arguments Return {A} a.
Arguments Raise {A} e.

Record outcome (A : Type) : Type := mk_outcome {
  res : result A;
  after : world;
  events : list event
}.
Arguments mk_outcome {A} res after events.
Arguments res {A} o.
Arguments after {A} o.
Arguments events {A} o.

(** A computation reads the world and gives a result or an exception, the
    new world and the events it caused. *)
Definition M (A : Type) : Type := world -> outcome A.

Definition ret {A} (a : A) : M A := fun w => mk_outcome (Return a) w [].

Definition raise {A} (e : exn) : M A := fun w => mk_outcome (Raise e) w [].

Definition bind {A B} (m : M A) (k : A -> M B) : M B :=
  fun w =>
    let o := m w in
    match res o with
    | Return a =>
        let o' := k a (after o) in
        mk_outcome (res o') (after o') (events o ++ events o')
    | Raise e => mk_outcome (Raise e) (after o) (events o)
    end.

(** [try: body except C as e: handler e], where [catches] tells whether
    the exception is an instance of [C]. *)
Definition try_except {A} (body : M A) (catches : exn -> bool) (handler : exn -> M A) : M A :=
  fun w =>
    let o := body w in
    match res o with
    | Return a => o
    | Raise e =>
        if catches e then
          let o' := handler e (after o) in
          mk_outcome (res o') (after o') (events o ++ events o')
        else o
    end.

(** [try: body finally: cleanup]. *)
Definition try_finally {A} (body : M A) (cleanup : M unit) : M A :=
  fun w =>
    let o := body w in
    let o' := cleanup (after o) in
    match res o' with
    | Return _ => mk_outcome (res o) (after o') (events o ++ events o')
    | Raise e => mk_outcome (Raise e) (after o') (events o ++ events o')
    end.

Definition emit (ev : event) : M unit := fun w => mk_outcome (Return tt) w [ev].

Definition get_world : M world := fun w => mk_outcome (Return w) w [].

Definition put_files (fs : filesystem) : M unit :=
  fun w => mk_outcome (Return tt) (mk_world fs (searches w)) [].

Definition logger (level : log_level) (msg : string) : M unit := emit (Log level msg).

End Py.

Import Py.

Declare Scope py_scope.
Delimit Scope py_scope with py.
Notation "x <- m ;; k" := (bind m (fun x => k))
  (at level 61, m at next level, right associativity) : py_scope.
Notation "m ;; k" := (bind m (fun _ => k))
  (at level 61, right associativity) : py_scope.
Local Open Scope py_scope.

(** ** Strings, paths and files *)

Module Str.

(** [sub in s]. *)
Fixpoint contains (sub s : string) : bool :=
  String.prefix sub s ||
  match s with
  | EmptyString => false
  | String _ s' => contains sub s'
  end.

(** [s.split(sep)] for a one-character separator: one more segment than
    there are separators. *)
Fixpoint split (sep : ascii) (s : string) : list string :=
  match s with
  | EmptyString => [EmptyString]
  | String c s' =>
      if Ascii.eqb c sep then EmptyString :: split sep s'
      else match split sep s' with
           | seg :: segs => String c seg :: segs
           | [] => [String c EmptyString]
           end
  end.

(** [l[-k]] for k >= 1; [None] stands for IndexError. *)
Definition index_from_end {A} (l : list A) (k : nat) : option A :=
  nth_error (List.rev l) (k - 1).

Definition endswith (s suffix : string) : bool :=
  let n := String.length s in
  let m := String.length suffix in
  (m <=? n)%nat && String.eqb (String.substring (n - m) m s) suffix.

(** [str(n)] for a non-negative integer. *)
Definition of_nat (n : nat) : string := NilEmpty.string_of_uint (Nat.to_uint n).

(** [s[n:]] when [p] is a prefix of [s] of length [n]. *)
Definition strip_prefix (p s : string) : option string :=
  if String.prefix p s
  then Some (String.substring (String.length p) (String.length s - String.length p) s)
  else None.

End Str.

Module os.

(** [os.path.join(a, b)] for POSIX paths. *)
Definition path_join (a name : string) : string :=
  if String.prefix "/" name then name
  else if String.eqb a "" then name
  else if Str.endswith a "/" then (a ++ name)%string
  else (a ++ "/" ++ name)%string.

Fixpoint lookup (p : string) (fs : filesystem) : option bytes :=
  match fs with
  | [] => None
  | (q, c) :: rest => if String.eqb p q then Some c else lookup p rest
  end.

Definition exists_ (p : string) (fs : filesystem) : bool :=
  match lookup p fs with Some _ => true | None => false end.

Definition unlink (p : string) (fs : filesystem) : filesystem :=
  filter (fun e => negb (String.eqb p (fst e))) fs.

(** POSIX rename: an existing destination is replaced; renaming a file to
    itself changes nothing.  The entry keeps its place in the listing. *)
Definition move (src dst : string) (fs : filesystem) : filesystem :=
  if String.eqb src dst then fs
  else map (fun e => if String.eqb src (fst e) then (dst, snd e) else e) (unlink dst fs).

(** The names of the plain files directly inside [dir], in listing order. *)
Definition entries (dir : string) (fs : filesystem) : list string :=
  flat_map (fun e =>
    match Str.strip_prefix (path_join dir "") (fst e) with
    | Some name =>
        if String.eqb name "" || Str.contains "/" name then [] else [name]
    | None => []
    end) fs.

(** [open(path, 'rb')]: the content to be read, or FileNotFoundError. *)
Definition open_rb (p : string) : M bytes :=
  fun w =>
    match lookup p (files w) with
    | Some c => mk_outcome (Return c) w []
    | None => mk_outcome (Raise (OSError "No such file or directory")) w []
    end.

Definition path_exists (p : string) : M bool :=
  fun w => mk_outcome (Return (exists_ p (files w))) w [].

Definition path_getsize (p : string) : M Z :=
  fun w =>
    match lookup p (files w) with
    | Some c => mk_outcome (Return (Z.of_nat (List.length c))) w []
    | None => mk_outcome (Raise (OSError "No such file or directory")) w []
    end.

Definition listdir (dir : string) : M (list string) :=
  fun w => mk_outcome (Return (entries dir (files w))) w [].

Definition rename (src dst : string) : M unit :=
  fun w =>
    if exists_ src (files w)
    then mk_outcome (Return tt) (mk_world (move src dst (files w)) (searches w)) []
    else mk_outcome (Raise (OSError "No such file or directory")) w [].

Definition remove (p : string) : M unit :=
  fun w =>
    if exists_ p (files w)
    then mk_outcome (Return tt) (mk_world (unlink p (files w)) (searches w)) []
    else mk_outcome (Raise (OSError "No such file or directory")) w [].

End os.

(** ** class VideoDownloader *)

Module VideoDownloader.

Section Methods.

(** The collaborators and [self.download_path]. *)
Variable env : environment.
Variable download_path : string.

(** One round trip to the search surface: [driver.get], the waits, the
    query and [find_elements].  Whatever fails on the way is one
    exception; an exhausted script is a wait that times out. *)
Definition search_results (query : string) : M (list link_element) :=
  fun w =>
    match searches w with
    | SearchResults links :: later =>
        mk_outcome (Return links) (mk_world (files w) later)
                   [DriverGet "https://google.com"]
    | SearchFails e :: later =>
        mk_outcome (Raise e) (mk_world (files w) later)
                   [DriverGet "https://google.com"]
    | [] =>
        mk_outcome (Raise (WebDriverException "timeout")) w
                   [DriverGet "https://google.com"]
    end.

(** The loop over [result_links] of [find_video_links]. *)
Fixpoint filter_reel_links (max_videos : Z) (result_links : list link_element)
    (reel_links : list string) : M (list string) :=
  match result_links with
  | [] => ret reel_links
  | link :: rest =>
      match link with
      | StaleElement link_error =>
          logger WARNING ("Error processing link: " ++ str_of_exn link_error) ;;
          filter_reel_links max_videos rest reel_links
      | Href None => filter_reel_links max_videos rest reel_links
      | Href (Some href) =>
          if negb (String.eqb href "") && Str.contains "/reel/" href then
            let reel_links' := reel_links ++ [href] in
            if (max_videos <=? Z.of_nat (List.length reel_links'))%Z
            then ret reel_links'
            else filter_reel_links max_videos rest reel_links'
          else filter_reel_links max_videos rest reel_links
      end
  end.

Definition find_video_links (keyword : string) (max_videos : Z) : M (list string) :=
  try_except
    (let search_query := ("site:instagram.com " ++ keyword ++ " reel")%string in
     result_links <- search_results search_query ;;
     reel_links <- filter_reel_links max_videos result_links [] ;;
     logger INFO ("Found " ++ Str.of_nat (List.length reel_links) ++ " Reel links") ;;
     ret reel_links)
    is_Exception
    (fun e => logger ERROR ("Search failed: " ++ str_of_exn e) ;; ret []).

(** [video_url.split('/')[-2] if '/reel/' in video_url else None]. *)
Definition extract_shortcode (video_url : string) : M (option string) :=
  if Str.contains "/reel/" video_url then
    match Str.index_from_end (Str.split "/" video_url) 2 with
    | Some segment => ret (Some segment)
    | None => raise (IndexError "list index out of range")
    end
  else ret None.

(** [Post.from_shortcode] followed by [L.download_post]. *)
Definition instaloader_download (shortcode : string) : M unit :=
  fun w =>
    match download_post env shortcode (files w) with
    | inr fs => mk_outcome (Return tt) (mk_world fs (searches w))
                           [InstaloaderDownload shortcode]
    | inl e => mk_outcome (Raise e) w [InstaloaderDownload shortcode]
    end.

Definition sanitized_filename (index : nat) (shortcode : string) : string :=
  ("instagram_video_" ++ Str.of_nat index ++ "_" ++ shortcode ++ ".mp4")%string.

(** The loop over [os.listdir]: the first name ending in [.mp4] is
    renamed, then the loop is left. *)
Definition rename_first_mp4 (full_path : string) : M unit :=
  names <- os.listdir download_path ;;
  match find (fun filename => Str.endswith filename ".mp4") names with
  | Some filename => os.rename (os.path_join download_path filename) full_path
  | None => ret tt
  end.

Definition download_video (video_url : string) (index : nat) : M (option string) :=
  try_except
    (shortcode <- extract_shortcode video_url ;;
     match shortcode with
     | None | Some EmptyString =>
         logger WARNING ("Invalid video URL: " ++ video_url) ;;
         ret None
     | Some shortcode =>
         let full_path := os.path_join download_path (sanitized_filename index shortcode) in
         downloaded <-
           try_except
             (instaloader_download shortcode ;;
              rename_first_mp4 full_path ;;
              ret true)
             is_Exception
             (fun download_error =>
                logger ERROR ("Instaloader download failed: " ++ str_of_exn download_error) ;;
                ret false) ;;
         if (downloaded : bool) then
           present <- os.path_exists full_path ;;
           if (present : bool) then
             size <- os.path_getsize full_path ;;
             if (0 <? size)%Z then
               logger INFO ("Successfully downloaded video: " ++ full_path) ;;
               ret (Some full_path)
             else ret None
           else ret None
         else ret None
     end)
    is_Exception
    (fun e =>
       logger ERROR ("Error downloading video " ++ video_url ++ ": " ++ str_of_exn e) ;;
       ret None).

(** [enumerate(l, start)]. *)
Definition enumerate {A} (l : list A) (start : nat) : list (nat * A) :=
  combine (seq start (List.length l)) l.

(** [asyncio.gather] over coroutines that never await: each one runs to
    completion when it is scheduled, in the order of the list. *)
Fixpoint gather {A} (tasks : list (M A)) : M (list A) :=
  match tasks with
  | [] => ret []
  | task :: rest =>
      v <- task ;;
      vs <- gather rest ;;
      ret (v :: vs)
  end.

(** Truth value of an [Optional[str]]. *)
Definition truthy (v : option string) : bool :=
  match v with
  | Some s => negb (String.eqb s "")
  | None => false
  end.

Fixpoint keep_truthy (vs : list (option string)) : list string :=
  match vs with
  | [] => []
  | Some s :: rest => if truthy (Some s) then s :: keep_truthy rest else keep_truthy rest
  | None :: rest => keep_truthy rest
  end.

Definition download_videos (keyword : string) (max_videos : Z) : M (list string) :=
  video_links <- find_video_links keyword max_videos ;;
  let download_tasks :=
    map (fun '(index, link) => download_video link index) (enumerate video_links 1) in
  downloaded_videos <- gather download_tasks ;;
  ret (keep_truthy downloaded_videos).

Definition close : M unit := emit DriverQuit.

End Methods.

End VideoDownloader.

(** ** class VideoUploader *)

Module VideoUploader.

(** [for byte_block in iter(lambda: f.read(n), b'')]: the file object is
    the content not read yet; [f.read(n)] takes up to [n] bytes from it and
    the loop ends at the first empty block. *)
Equations? read_blocks (n : nat) (f : bytes) (sha256_hash : hashlib.sha256) : hashlib.sha256
  by wf (List.length f) lt :=
  read_blocks n f sha256_hash with inspect (firstn n f) := {
    | exist _ [] _ := sha256_hash
    | exist _ (byte0 :: block) _ :=
        read_blocks n (skipn n f) (hashlib.update sha256_hash (byte0 :: block)) }.
Proof.
  rewrite List.length_skipn.
  destruct n as [|n]; [discriminate|].
  destruct f as [|x f]; [discriminate|]. simpl. lia.
Qed.

Definition generate_file_hash (file_path : string) : M string :=
  f <- os.open_rb file_path ;;
  ret (hashlib.hexdigest (read_blocks 4096 f hashlib.new)).

Record upload_info : Type := mk_upload_info {
  upload_url : pyval;
  hash : pyval
}.

Section Methods.

Variable env : environment.

(** [self.flic_token] is sent as a header of the two API calls and does
    not take part in the control flow. *)
Definition base_url : string := "https://api.socialverseapp.com".

(** [response.raise_for_status()]: HTTPError for a 4xx or 5xx status. *)
Definition is_error_status (r : response) : bool :=
  ((400 <=? status_code r) && (status_code r <? 600))%Z.

Definition raise_for_status (r : response) : M unit :=
  if is_error_status r
  then raise (RequestException HTTPError "HTTPError" (Some r))
  else ret tt.

(** [response.json()]. *)
Definition json (r : response) : M pyval :=
  match decoded r with
  | Some v => ret v
  | None => raise (RequestException JSONDecodeError "Expecting value" None)
  end.

Fixpoint assoc (key : string) (d : list (string * pyval)) : option pyval :=
  match d with
  | [] => None
  | (k, v) :: rest => if String.eqb key k then Some v else assoc key rest
  end.

(** [v.get(key)]: only a dict has the method. *)
Definition get (v : pyval) (key : string) : M pyval :=
  match v with
  | PDict d => ret (match assoc key d with Some x => x | None => PNone end)
  | _ => raise (AttributeError "object has no attribute 'get'")
  end.

(** [e.response]: the attribute exists on request exceptions only. *)
Definition response_of (e : exn) : M (option response) :=
  match e with
  | RequestException _ _ resp => ret resp
  | _ => raise (AttributeError "object has no attribute 'response'")
  end.

(** Truth value of [e.response]: [None] is false, and a [Response] is true
    exactly when its status is not an error status. *)
Definition response_truthy (resp : option response) : bool :=
  match resp with
  | Some r => negb (is_error_status r)
  | None => false
  end.

Definition of_outcome (o : http_outcome) : M response :=
  match o with
  | Responds r => ret r
  | Fails kind msg => raise (RequestException kind msg None)
  end.

Definition requests_get (url file_hash : string) (file_size : Z) : M response :=
  emit (HttpGet url file_hash file_size) ;;
  of_outcome (remote_get env url file_hash file_size).

(** A URL that is not a string has no scheme. *)
Definition requests_put (url : pyval) (body : bytes) : M response :=
  emit (HttpPut url body) ;;
  match url with
  | PStr u => of_outcome (remote_put env u body)
  | _ => raise (RequestException MissingSchema "Invalid URL: No scheme supplied" None)
  end.

Definition requests_post (url title : string) (file_hash : pyval) (public : bool)
    (category_id : Z) : M response :=
  emit (HttpPost url title file_hash public category_id) ;;
  of_outcome (remote_post env url title file_hash public category_id).

(** The guarded [self.logger.error(f"Response content: {e.response.text}")];
    each guard that is true implies that the response is not [None]. *)
Definition log_response_if (cond : bool) (resp : option response) : M unit :=
  match resp with
  | Some r => if cond then logger ERROR ("Response content: " ++ text r) else ret tt
  | None => ret tt
  end.

(** The body of the [try] of [get_upload_url]. *)
Definition slot_request_steps (file_path : string) : M upload_info :=
  file_hash <- generate_file_hash file_path ;;
  file_size <- os.path_getsize file_path ;;
  let url := (base_url ++ "/posts/generate-upload-url")%string in
  response <- requests_get url file_hash file_size ;;
  raise_for_status response ;;
  upload_data <- json response ;;
  printed <- json response ;;
  emit (Print "upload data") ;;
  logger INFO ("Upload URL generated for file: " ++ file_path) ;;
  url_value <- get upload_data "url" ;;
  hash_value <- get upload_data "hash" ;;
  ret (mk_upload_info url_value hash_value).

Definition get_upload_url (file_path : string) : M upload_info :=
  try_except
    (slot_request_steps file_path)
    is_RequestException
    (fun e =>
       logger ERROR ("Error getting upload URL: " ++ str_of_exn e) ;;
       resp <- response_of e ;;
       log_response_if (response_truthy resp) resp ;;
       raise e).

Definition upload_video (file_path : string) (upload_url : pyval) : M bool :=
  try_except
    (file <- os.open_rb file_path ;;
     response <- requests_put upload_url file ;;
     raise_for_status response ;;
     logger INFO ("Successfully uploaded video: " ++ file_path) ;;
     ret true)
    is_RequestException
    (fun e =>
       logger ERROR ("Error uploading video: " ++ str_of_exn e) ;;
       resp <- response_of e ;;
       log_response_if (response_truthy resp) resp ;;
       ret false).

Definition is_some {A} (o : option A) : bool :=
  match o with Some _ => true | None => false end.

Definition create_post (file_hash : pyval) (title : string) (category_id : Z) : M pyval :=
  try_except
    (let url := (base_url ++ "/posts")%string in
     response <- requests_post url title file_hash false category_id ;;
     logger INFO "Creating post with payload" ;;
     raise_for_status response ;;
     post_data <- json response ;;
     post_id <- get post_data "id" ;;
     logger INFO "Post created successfully" ;;
     ret post_data)
    is_RequestException
    (fun e =>
       logger ERROR ("Error creating post: " ++ str_of_exn e) ;;
       resp <- response_of e ;;
       log_response_if (is_some resp) resp ;;
       raise e).

(** The body of the [try] of [upload_video_to_socialverse]. *)
Definition publish_steps (file_path title : string) (category_id : Z) : M pyval :=
  upload_info <- get_upload_url file_path ;;
  upload_success <- upload_video file_path (upload_url upload_info) ;;
  (if (upload_success : bool) then ret tt
   else raise (ValueError "Video upload failed")) ;;
  post_data <- create_post (hash upload_info) title category_id ;;
  ret post_data.

Definition upload_video_to_socialverse (file_path title : string) (category_id : Z)
    : M pyval :=
  try_except
    (publish_steps file_path title category_id)
    is_Exception
    (fun e =>
       logger ERROR ("Complete upload process failed: " ++ str_of_exn e) ;;
       resp <- response_of e ;;
       log_response_if (is_some resp) resp ;;
       raise e).

End Methods.

End VideoUploader.

(** ** main *)

Module Main.

Section Main.

Variable env : environment.

Definition SOCIAL_MEDIA : string := "instagram.com".
Definition MAX_VIDEOS : Z := 5.
Definition download_path : string := "instagram_videos".
Definition max_retries : nat := 3.

Definition nonempty {A} (l : list A) : bool :=
  match l with [] => false | _ :: _ => true end.

Fixpoint log_each (videos : list string) : M unit :=
  match videos with
  | [] => ret tt
  | video :: rest => logger INFO video ;; log_each rest
  end.

(** [for attempt in range(max_retries)]: the body is one [try]; the
    boolean tells whether it ended in [break], and [downloaded_files] is
    the variable as the body leaves it.  [download_videos] is the call
    of line 409. *)
Fixpoint retry_loop (download_videos : M (list string)) (attempts : list nat)
    (downloaded_files : list string) : M (list string) :=
  match attempts with
  | [] => ret downloaded_files
  | attempt :: later =>
      step <-
        try_except
          (files <- download_videos ;;
           if nonempty files then
             logger INFO "Downloaded Videos:" ;;
             log_each files ;;
             ret (files, true)
           else
             logger WARNING ("No videos downloaded on attempt " ++ Str.of_nat (attempt + 1)) ;;
             ret (files, false))
          is_Exception
          (fun retry_error =>
             logger ERROR ("Retry attempt " ++ Str.of_nat (attempt + 1) ++ " failed: "
                           ++ str_of_exn retry_error) ;;
             emit (Sleep 3) ;;
             ret (downloaded_files, false)) ;;
      if (snd step : bool) then ret (fst step)
      else retry_loop download_videos later (fst step)
  end.

(** Lines 402 to 431.  The outer handler is never entered, since the loop
    body handles every exception itself. *)
Definition discovery_phase (keyword : string) : M (list string) :=
  try_finally
    (try_except
       (retry_loop (VideoDownloader.download_videos env download_path keyword MAX_VIDEOS)
                   (seq 0 max_retries) [])
       is_Exception
       (fun e => logger ERROR ("An error occurred: " ++ str_of_exn e) ;; ret []))
    VideoDownloader.close.

(** [for video_path in downloaded_files] of the upload part. *)
Fixpoint upload_each (keyword : string) (downloaded_files : list string) : M unit :=
  match downloaded_files with
  | [] => ret tt
  | video_path :: rest =>
      post_response <-
        VideoUploader.upload_video_to_socialverse env video_path
          ("Instagram Reel: " ++ keyword) 25 ;;
      os.remove video_path ;;
      post_id <- VideoUploader.get post_response "id" ;;
      emit (Print "Video uploaded. Post ID") ;;
      upload_each keyword rest
  end.

Definition upload_phase (keyword : string) (downloaded_files : list string) : M unit :=
  if nonempty downloaded_files then
    try_except
      (upload_each keyword downloaded_files)
      is_Exception
      (fun e => logger ERROR ("Upload failed: " ++ str_of_exn e))
  else logger WARNING "No videos were downloaded, skipping upload.".

Definition main (SEARCH_KEYWORD : string) : M unit :=
  downloaded_files <- discovery_phase SEARCH_KEYWORD ;;
  upload_phase SEARCH_KEYWORD downloaded_files.

End Main.

End Main.

(** * Vocabulary of the properties *)

(** Byte strings for the examples. *)
Definition b (s : string) : bytes := list_byte_of_string s.

(** The hash objects that [update] produces from [hashlib.new]. *)
Definition buffered (s : hashlib.sha256) : Prop :=
  (List.length (hashlib.pending s) < 64)%nat.

(** [emits ok m]: every event of [m] satisfies [ok]. *)
Definition emits {A} (ok : event -> bool) (m : M A) : Prop :=
  forall w, forallb ok (events (m w)) = true.

(** [read_only m]: [m] leaves the world as it found it. *)
Definition read_only {A} (m : M A) : Prop :=
  forall w, after (m w) = w.

(** [keeps_files m]: [m] leaves the files as it found them. *)
Definition keeps_files {A} (m : M A) : Prop :=
  forall w, files (after (m w)) = files w.

(** [returns m]: [m] never raises. *)
Definition returns {A} (m : M A) : Prop :=
  forall w, exists a, res (m w) = Return a.

(** Kinds of events. *)
Definition is_post (ev : event) : bool :=
  match ev with HttpPost _ _ _ _ _ => true | _ => false end.

Definition not_post (ev : event) : bool := negb (is_post ev).

(** The words of the specification: a response outside the 2xx range, and
    a payload that is not a JSON object with the keys [url] and [hash]. *)
Definition spec_non_2xx (r : response) : bool :=
  negb ((200 <=? status_code r) && (status_code r <? 300))%Z.

Definition spec_malformed_payload (r : response) : bool :=
  match decoded r with
  | Some (PDict d) =>
      negb (VideoUploader.is_some (VideoUploader.assoc "url" d)
            && VideoUploader.is_some (VideoUploader.assoc "hash" d))
  | _ => true
  end.

Definition is_dict (v : pyval) : bool :=
  match v with PDict _ => true | _ => false end.

Definition is_download (ev : event) : bool :=
  match ev with InstaloaderDownload _ => true | _ => false end.

Definition is_search (ev : event) : bool :=
  match ev with DriverGet _ => true | _ => false end.

Definition is_sleep (ev : event) : bool :=
  match ev with Sleep _ => true | _ => false end.

(** An attempt is one call of [download_videos]; each call makes one round
    trip to the search surface, which starts with [driver.get]. *)
Definition attempts (evs : list event) : nat := List.length (filter is_search evs).

(** The events that the downloader causes besides the search itself. *)
Definition fetch_event (ev : event) : bool :=
  match ev with Log _ _ | InstaloaderDownload _ => true | _ => false end.

(** Whether an attempt gave a non-empty list of downloads. *)
Definition found (o : outcome (list string)) : bool :=
  match res o with
  | Return (_ :: _) => true
  | _ => false
  end.

Definition not_sleep (ev : event) : bool := negb (is_sleep ev).

(** The name under which [download_video] stores video [index]. *)
Definition target (download_path : string) (index : nat) (shortcode : string) : string :=
  os.path_join download_path (VideoDownloader.sanitized_filename index shortcode).

(** [yields P m]: every value that [m] returns satisfies [P]. *)
Definition yields {A} (P : A -> Prop) (m : M A) : Prop :=
  forall w a, res (m w) = Return a -> P a.

(** [c not in s]. *)
Fixpoint lacks (c : ascii) (s : string) : bool :=
  match s with
  | EmptyString => true
  | String c' s' => negb (Ascii.eqb c' c) && lacks c s'
  end.

(** [s.count('/')]. *)
Fixpoint slashes (s : string) : nat :=
  match s with
  | EmptyString => 0
  | String c s' => (if Ascii.eqb c "/" then 1 else 0) + slashes s'
  end.

(** The reel links among the elements of a result page, in page order:
    the [href]s that are there, are not empty and hold the reel marker. *)
Fixpoint reel_hrefs (result_links : list link_element) : list string :=
  match result_links with
  | [] => []
  | Href (Some href) :: rest =>
      if negb (String.eqb href "") && Str.contains "/reel/" href
      then href :: reel_hrefs rest
      else reel_hrefs rest
  | _ :: rest => reel_hrefs rest
  end.

(** [d.get(key)] on the pairs of a dict. *)
Definition dict_get (d : list (string * pyval)) (key : string) : pyval :=
  match VideoUploader.assoc key d with
  | Some v => v
  | None => PNone
  end.

(** Whether the PUT of [body] to [url] is answered without an error
    status. *)
Definition put_succeeds (env : environment) (url : pyval) (body : bytes) : bool :=
  match url with
  | PStr u =>
      match remote_put env u body with
      | Responds r => negb (VideoUploader.is_error_status r)
      | Fails _ _ => false
      end
  | _ => false
  end.

(** The events of the slot negotiation: the request, the print and log
    lines. *)
Definition slot_event (ev : event) : bool :=
  match ev with
  | HttpGet _ _ _ | Print _ | Log _ _ => true
  | _ => false
  end.

(** A post-creation request as [create_post] sends it for [title] and
    [category_id]: to the posts endpoint, not available in the public
    feed.  Every other event passes. *)
Definition private_post (title : string) (category_id : Z) (ev : event) : bool :=
  match ev with
  | HttpPost url t _ public c =>
      String.eqb url "https://api.socialverseapp.com/posts"
      && String.eqb t title && negb public && (c =? category_id)%Z
  | _ => true
  end.

(** The events of the upload pipeline: requests to the remote API, print
    and log lines. *)
Definition api_event (ev : event) : bool :=
  match ev with
  | HttpGet _ _ _ | HttpPut _ _ | HttpPost _ _ _ _ _ | Print _ | Log _ _ => true
  | _ => false
  end.

Definition is_quit (ev : event) : bool :=
  match ev with DriverQuit => true | _ => false end.

(** How many times the browser session is released. *)
Definition quits (evs : list event) : nat := List.length (filter is_quit evs).

Definition is_log (ev : event) : bool :=
  match ev with Log _ _ => true | _ => false end.

(** * Scenarios

    Collaborators and worlds on which the properties are exercised. *)

(** The answers of a remote API that grants the slot and creates the
    post. *)
Definition granted_slot : response :=
  mk_response 200 "slot"
    (Some (PDict [("url", PStr "https://storage.example/slot"); ("hash", PStr "abc")])).

Definition created_post : response :=
  mk_response 200 "post" (Some (PDict [("id", PInt 7)])).

(** A content-download library that finds no post. *)
Definition no_download (shortcode : string) (fs : filesystem) : exn + filesystem :=
  inl (InstaloaderException "not found").

(** A remote API that refuses the transfer: the slot is granted, the PUT
    is answered with 403. *)
Definition refusing_transfer : environment :=
  mk_environment no_download
    (fun _ _ _ => Responds granted_slot)
    (fun _ _ => Responds (mk_response 403 "denied" None))
    (fun _ _ _ _ _ => Responds created_post).

Definition one_clip : world := mk_world [("clip.mp4", b "abc")] [].

(** A remote API that answers every slot request with [r]. *)
Definition answering (r : response) : environment :=
  mk_environment no_download
    (fun _ _ _ => Responds r)
    (fun _ _ => Responds (mk_response 200 "" None))
    (fun _ _ _ _ _ => Responds created_post).

(** A JSON object without the expected keys, answered with 200; and a
    well-formed slot answered with 300. *)
Definition empty_object : response := mk_response 200 "{}" (Some (PDict [])).

Definition multiple_choices : response :=
  mk_response 300 "slot"
    (Some (PDict [("url", PStr "https://storage.example/slot"); ("hash", PStr "abc")])).

(** The targets of the first and of the second video of a run. *)
Definition first_clip : string := "instagram_videos/instagram_video_1_AAA.mp4".
Definition second_clip : string := "instagram_videos/instagram_video_2_BBB.mp4".

Definition two_clips : world :=
  mk_world [(first_clip, b "abc"); (second_clip, b "xyz")] [].

(** The content-download library as it names its files: one file per post,
    named after the date of the post, listed after the files that are
    already there. *)
Definition posts_by_date (shortcode : string) (fs : filesystem) : exn + filesystem :=
  if String.eqb shortcode "AAA" then
    inr (fs ++ [("instagram_videos/2024-05-01_10-00-00_UTC.mp4", b "video of AAA")])
  else if String.eqb shortcode "BBB" then
    inr (fs ++ [("instagram_videos/2024-05-02_11-30-00_UTC.mp4", b "video of BBB")])
  else inl (InstaloaderException "Post not found").

Definition instagram : environment :=
  mk_environment posts_by_date
    (fun _ _ _ => Responds granted_slot)
    (fun _ _ => Responds (mk_response 200 "" None))
    (fun _ _ _ _ _ => Responds created_post).

Definition reel_AAA : string := "https://www.instagram.com/reel/AAA/".
Definition reel_BBB : string := "https://www.instagram.com/reel/BBB/".

(** The download directory after the post AAA has been fetched as video 1. *)
Definition after_first_fetch : world :=
  mk_world [(first_clip, b "video of AAA")] [].

(** An empty download directory and a search that shows two reels. *)
Definition two_reels : world :=
  mk_world [] [SearchResults [Href (Some reel_AAA); Href (Some reel_BBB)]].

(** The search surface answers twice with no link and then with one. *)
Definition third_time_lucky : world :=
  mk_world [] [SearchResults []; SearchResults []; SearchResults [Href (Some reel_AAA)]].

(** The search surface never shows a link. *)
Definition no_results : world :=
  mk_world [] [SearchResults []; SearchResults []; SearchResults []].

(** * Properties *)

(** ** The hash object *)

Example sha256_abc :
  hashlib.sha256_hexdigest (b "abc")
  = "ba7816bf8f01cfea414140de5dae2223b00361a396177a9cb410ff61f20015ad".
Proof. vm_compute. reflexivity. Qed.

Example sha256_empty :
  hashlib.sha256_hexdigest []
  = "e3b0c44298fc1c149afbf4c8996fb92427ae41e4649b934ca495991b7852b855".
Proof. vm_compute. reflexivity. Qed.

Example sha256_two_blocks :
  hashlib.sha256_hexdigest (repeat "a"%byte 100)
  = "2816597888e4a0d3a36b82b83316ab32680eb8f00f8cd3b904d681246d285a0e".
Proof. vm_compute. reflexivity. Qed.

Section Absorb.

Variable step : list Z -> bytes -> list Z.
Variable n : nat.

Lemma absorb_blocks_short h data :
  (List.length data < S n)%nat -> hashlib.absorb_blocks step n h data = (h, data).
Proof.
  intros Hlt. rewrite hashlib.absorb_blocks_equation_1.
  destruct (le_lt_dec (S n) (List.length data)); [lia | reflexivity].
Qed.

Lemma absorb_blocks_long h data :
  (S n <= List.length data)%nat ->
  hashlib.absorb_blocks step n h data
  = hashlib.absorb_blocks step n (step h (firstn (S n) data)) (skipn (S n) data).
Proof.
  intros Hle. rewrite hashlib.absorb_blocks_equation_1.
  destruct (le_lt_dec (S n) (List.length data)); [reflexivity | lia].
Qed.

(** What is left pending is shorter than a block. *)
Lemma absorb_blocks_pending h data :
  (List.length (snd (hashlib.absorb_blocks step n h data)) < S n)%nat.
Proof.
  remember (List.length data) as len eqn:Hlen.
  revert h data Hlen.
  induction len as [len IH] using lt_wf_ind; intros h data Hlen.
  destruct (le_lt_dec (S n) (List.length data)) as [Hle | Hlt].
  - rewrite absorb_blocks_long by assumption.
    apply (IH (List.length (skipn (S n) data))); [| reflexivity].
    rewrite List.length_skipn. lia.
  - rewrite absorb_blocks_short by assumption. simpl. assumption.
Qed.

(** Feeding more bytes after [data] continues from the state and the
    pending bytes that [data] left. *)
Lemma absorb_blocks_app h data more :
  hashlib.absorb_blocks step n h (data ++ more)
  = hashlib.absorb_blocks step n
      (fst (hashlib.absorb_blocks step n h data))
      (snd (hashlib.absorb_blocks step n h data) ++ more).
Proof.
  remember (List.length data) as len eqn:Hlen.
  revert h data Hlen.
  induction len as [len IH] using lt_wf_ind; intros h data Hlen.
  destruct (le_lt_dec (S n) (List.length data)) as [Hle | Hlt].
  - rewrite (absorb_blocks_long h data) by assumption.
    rewrite (absorb_blocks_long h (data ++ more))
      by (rewrite List.length_app; lia).
    rewrite List.firstn_app, List.skipn_app.
    replace (S n - List.length data)%nat with 0%nat by lia.
    simpl firstn at 2. simpl skipn at 2. rewrite List.app_nil_r.
    apply (IH (List.length (skipn (S n) data))); [| reflexivity].
    rewrite List.length_skipn. lia.
  - rewrite (absorb_blocks_short h data) by assumption. reflexivity.
Qed.

End Absorb.

Lemma new_buffered : buffered hashlib.new.
Proof. unfold buffered. simpl. lia. Qed.

Lemma update_buffered s data : buffered (hashlib.update s data).
Proof.
  unfold buffered, hashlib.update, hashlib.absorb.
  pose proof (absorb_blocks_pending hashlib.compress 63 (hashlib.chaining s)
                (hashlib.pending s ++ data)) as Hp.
  destruct (hashlib.absorb_blocks _ _ _ _) as [h rest]. exact Hp.
Qed.

Lemma update_nil s : buffered s -> hashlib.update s [] = s.
Proof.
  unfold buffered, hashlib.update, hashlib.absorb. intros Hs.
  rewrite List.app_nil_r, absorb_blocks_short by lia.
  destruct s as [h p f]. simpl. f_equal. lia.
Qed.

(** [m.update(a); m.update(b)] is [m.update(a + b)]. *)
Lemma update_app s x y :
  hashlib.update (hashlib.update s x) y = hashlib.update s (x ++ y).
Proof.
  unfold hashlib.update, hashlib.absorb.
  rewrite List.app_assoc.
  rewrite (absorb_blocks_app hashlib.compress 63 (hashlib.chaining s)
             (hashlib.pending s ++ x) y).
  destruct (hashlib.absorb_blocks hashlib.compress 63 (hashlib.chaining s)
              (hashlib.pending s ++ x)) as [h rest].
  simpl.
  destruct (hashlib.absorb_blocks hashlib.compress 63 h (rest ++ y)) as [h' rest'].
  f_equal. rewrite List.length_app. lia.
Qed.

Lemma fold_update chunks : forall s,
  buffered s ->
  fold_left hashlib.update chunks s = hashlib.update s (List.concat chunks).
Proof.
  induction chunks as [|c chunks IH]; intros s Hs; simpl.
  - symmetry. apply update_nil. assumption.
  - rewrite IH by apply update_buffered. apply update_app.
Qed.

(** The read loop feeds the whole file, whatever the block size. *)
Lemma read_blocks_update n f : forall s,
  (0 < n)%nat -> buffered s ->
  VideoUploader.read_blocks n f s = hashlib.update s f.
Proof.
  remember (List.length f) as len eqn:Hlen.
  revert f Hlen.
  induction len as [len IH] using lt_wf_ind; intros f Hlen s Hn Hs.
  rewrite VideoUploader.read_blocks_equation_1.
  destruct (inspect (firstn n f)) as [[|byte0 block] Hblock]; simpl.
  - assert (f = []) as ->.
    { destruct n; [lia|]. destruct f; [reflexivity | discriminate]. }
    symmetry. apply update_nil. assumption.
  - rewrite <- Hblock.
    rewrite (IH (List.length (skipn n f))); try reflexivity; try assumption.
    + rewrite update_app, List.firstn_skipn. reflexivity.
    + rewrite List.length_skipn.
      destruct f; [destruct n; discriminate |].
      destruct n; [lia | simpl in Hlen |- *; lia].
    + apply update_buffered.
Qed.

(** C8. [generate_file_hash] returns, for every file that exists, the
    SHA-256 digest of its full content, and leaves the world as it was;
    the digest does not depend on how the content is cut into the blocks
    given to [update]: any block size of the read loop and any sequence of
    chunks whose concatenation is the content give the same digest. *)
Theorem generate_file_hash_chunk_independent :
  forall (w : world) (file_path : string) (content : bytes),
    os.lookup file_path (files w) = Some content ->
    VideoUploader.generate_file_hash file_path w
      = mk_outcome (Return (hashlib.sha256_hexdigest content)) w []
    /\ (forall n : nat, (0 < n)%nat ->
          hashlib.hexdigest (VideoUploader.read_blocks n content hashlib.new)
          = hashlib.sha256_hexdigest content)
    /\ (forall chunks : list bytes, List.concat chunks = content ->
          hashlib.hexdigest (fold_left hashlib.update chunks hashlib.new)
          = hashlib.sha256_hexdigest content).
Proof.
  intros w file_path content Hfile. repeat split.
  - unfold VideoUploader.generate_file_hash, bind, os.open_rb, ret.
    rewrite Hfile. simpl.
    rewrite read_blocks_update by (try apply new_buffered; lia).
    reflexivity.
  - intros n Hn. rewrite read_blocks_update by (try apply new_buffered; lia).
    reflexivity.
  - intros chunks <-. rewrite fold_update by apply new_buffered. reflexivity.
Qed.

Lemma generate_file_hash_chunk_independent_witness :
  let w := mk_world [("clip.mp4", b "abc")] [] in
  VideoUploader.generate_file_hash "clip.mp4" w
  = mk_outcome
      (Return "ba7816bf8f01cfea414140de5dae2223b00361a396177a9cb410ff61f20015ad") w [].
Proof.
  intros w.
  exact (proj1 (generate_file_hash_chunk_independent w "clip.mp4" (b "abc") eq_refl)).
Defined.

(** ** Effects of composed computations *)

Arguments hashlib.hexdigest : simpl never.
Arguments hashlib.update : simpl never.
Arguments hashlib.compress : simpl never.
Arguments VideoUploader.read_blocks : simpl never.

Section Composition.

Context {A B : Type}.
Variable ok : event -> bool.

Lemma bind_Return (m : M A) (k : A -> M B) w a :
  res (m w) = Return a ->
  bind m k w = mk_outcome (res (k a (after (m w)))) (after (k a (after (m w))))
                          (events (m w) ++ events (k a (after (m w)))).
Proof. intros H. unfold bind. rewrite H. reflexivity. Qed.

Lemma bind_Raise (m : M A) (k : A -> M B) w e :
  res (m w) = Raise e ->
  bind m k w = mk_outcome (Raise e) (after (m w)) (events (m w)).
Proof. intros H. unfold bind. rewrite H. reflexivity. Qed.

Lemma try_except_Return (m : M A) catches handler w a :
  res (m w) = Return a -> try_except m catches handler w = m w.
Proof. intros H. unfold try_except. rewrite H. reflexivity. Qed.

Lemma try_except_Raise (m : M A) catches handler w e :
  res (m w) = Raise e -> catches e = true ->
  try_except m catches handler w
  = mk_outcome (res (handler e (after (m w)))) (after (handler e (after (m w))))
               (events (m w) ++ events (handler e (after (m w)))).
Proof. intros H Hc. unfold try_except. rewrite H, Hc. reflexivity. Qed.

Lemma bind_outcome (m : M A) (k : A -> M B) w a w' evs :
  m w = mk_outcome (Return a) w' evs ->
  bind m k w = mk_outcome (res (k a w')) (after (k a w')) (evs ++ events (k a w')).
Proof. intros H. unfold bind. rewrite H. reflexivity. Qed.

Lemma try_except_outcome (m : M A) catches handler w a w' evs :
  m w = mk_outcome (Return a) w' evs ->
  try_except m catches handler w = mk_outcome (Return a) w' evs.
Proof. intros H. unfold try_except. rewrite H. reflexivity. Qed.

Lemma bind_raise_outcome (m : M A) (k : A -> M B) w e w' evs :
  m w = mk_outcome (Raise e) w' evs ->
  bind m k w = mk_outcome (Raise e) w' evs.
Proof. intros H. unfold bind. rewrite H. reflexivity. Qed.

Lemma try_except_raise_outcome (m : M A) catches handler w e w' evs :
  m w = mk_outcome (Raise e) w' evs -> catches e = true ->
  try_except m catches handler w
  = mk_outcome (res (handler e w')) (after (handler e w')) (evs ++ events (handler e w')).
Proof. intros H Hc. unfold try_except. rewrite H. cbn [res]. rewrite Hc. reflexivity. Qed.

Lemma res_bind_Return (m : M A) (k : A -> M B) w a :
  res (m w) = Return a -> res (bind m k w) = res (k a (after (m w))).
Proof. intros H. rewrite (bind_Return _ _ _ _ H). reflexivity. Qed.

Lemma events_bind_Return (m : M A) (k : A -> M B) w a :
  res (m w) = Return a ->
  events (bind m k w) = events (m w) ++ events (k a (after (m w))).
Proof. intros H. rewrite (bind_Return _ _ _ _ H). reflexivity. Qed.

Lemma after_bind_Return (m : M A) (k : A -> M B) w a :
  res (m w) = Return a -> after (bind m k w) = after (k a (after (m w))).
Proof. intros H. rewrite (bind_Return _ _ _ _ H). reflexivity. Qed.

Lemma res_bind_Raise (m : M A) (k : A -> M B) w e :
  res (m w) = Raise e -> res (bind m k w) = Raise e.
Proof. intros H. rewrite (bind_Raise _ _ _ _ H). reflexivity. Qed.

Lemma events_bind_Raise (m : M A) (k : A -> M B) w e :
  res (m w) = Raise e -> events (bind m k w) = events (m w).
Proof. intros H. rewrite (bind_Raise _ _ _ _ H). reflexivity. Qed.

Lemma after_bind_Raise (m : M A) (k : A -> M B) w e :
  res (m w) = Raise e -> after (bind m k w) = after (m w).
Proof. intros H. rewrite (bind_Raise _ _ _ _ H). reflexivity. Qed.

(** A handler that always raises lets only the results of the body
    through. *)
Lemma try_except_reraise (m : M A) catches handler w a :
  (forall e w', exists e', res (handler e w') = Raise e') ->
  res (try_except m catches handler w) = Return a ->
  res (m w) = Return a.
Proof.
  intros Hh. unfold try_except.
  destruct (res (m w)) as [a'|e] eqn:Hm; [rewrite Hm; trivial|].
  destruct (catches e); [| rewrite Hm; discriminate].
  simpl. destruct (Hh e (after (m w))) as [e' He']. rewrite He'. discriminate.
Qed.

Lemma emits_bind (m : M A) (k : A -> M B) :
  emits ok m -> (forall a, emits ok (k a)) -> emits ok (bind m k).
Proof.
  intros Hm Hk w. unfold bind. specialize (Hm w).
  destruct (res (m w)) as [a|e]; simpl; [| assumption].
  rewrite forallb_app, Hm. apply Hk.
Qed.

Lemma emits_try_except (m : M A) catches handler :
  emits ok m -> (forall e, emits ok (handler e)) -> emits ok (try_except m catches handler).
Proof.
  intros Hm Hh w. unfold try_except. specialize (Hm w).
  destruct (res (m w)) as [a|e]; [assumption|].
  destruct (catches e); [| assumption]. simpl.
  rewrite forallb_app, Hm. apply Hh.
Qed.

Lemma read_only_bind (m : M A) (k : A -> M B) :
  read_only m -> (forall a, read_only (k a)) -> read_only (bind m k).
Proof.
  intros Hm Hk w. unfold bind. specialize (Hm w).
  destruct (res (m w)) as [a|e]; simpl; [| assumption].
  rewrite Hm. apply Hk.
Qed.

Lemma read_only_try_except (m : M A) catches handler :
  read_only m -> (forall e, read_only (handler e)) ->
  read_only (try_except m catches handler).
Proof.
  intros Hm Hh w. unfold try_except. specialize (Hm w).
  destruct (res (m w)) as [a|e]; [assumption|].
  destruct (catches e); [| assumption]. simpl.
  rewrite Hm. apply Hh.
Qed.

Lemma keeps_files_bind (m : M A) (k : A -> M B) :
  keeps_files m -> (forall a, keeps_files (k a)) -> keeps_files (bind m k).
Proof.
  intros Hm Hk w. unfold bind. specialize (Hm w).
  destruct (res (m w)) as [a|e]; simpl; [| assumption].
  rewrite Hk. assumption.
Qed.

Lemma keeps_files_try_except (m : M A) catches handler :
  keeps_files m -> (forall e, keeps_files (handler e)) ->
  keeps_files (try_except m catches handler).
Proof.
  intros Hm Hh w. unfold try_except. specialize (Hm w).
  destruct (res (m w)) as [a|e]; [assumption|].
  destruct (catches e); [| assumption]. simpl.
  rewrite Hh. assumption.
Qed.

Lemma returns_bind (m : M A) (k : A -> M B) :
  returns m -> (forall a, returns (k a)) -> returns (bind m k).
Proof.
  intros Hm Hk w. unfold bind. destruct (Hm w) as [a Ha]. rewrite Ha. simpl.
  apply Hk.
Qed.

(** A handler that returns for every exception makes the [try] total. *)
Lemma returns_try_except (m : M A) handler :
  (forall e, returns (handler e)) -> returns (try_except m is_Exception handler).
Proof.
  intros Hh w. unfold try_except.
  destruct (res (m w)) as [a|e] eqn:Hr; [exists a; assumption|].
  simpl. apply Hh.
Qed.

End Composition.

Lemma emits_ret {A} ok (a : A) : emits ok (ret a).
Proof. intros w. reflexivity. Qed.

Lemma emits_raise {A} ok e : emits ok (@raise A e).
Proof. intros w. reflexivity. Qed.

Lemma emits_emit ok ev : ok ev = true -> emits ok (emit ev).
Proof. intros H w. simpl. rewrite H. reflexivity. Qed.

Lemma read_only_ret {A} (a : A) : read_only (ret a).
Proof. intros w. reflexivity. Qed.

Lemma read_only_raise {A} e : read_only (@raise A e).
Proof. intros w. reflexivity. Qed.

Lemma read_only_emit ev : read_only (emit ev).
Proof. intros w. reflexivity. Qed.

Lemma read_only_keeps_files {A} (m : M A) : read_only m -> keeps_files m.
Proof. intros H w. rewrite H. reflexivity. Qed.

Lemma returns_ret {A} (a : A) : returns (ret a).
Proof. intros w. exists a. reflexivity. Qed.

Lemma returns_emit ev : returns (emit ev).
Proof. intros w. exists tt. reflexivity. Qed.

(** File operations that only look. *)
Lemma open_rb_quiet p : read_only (os.open_rb p) /\ forall ok, emits ok (os.open_rb p).
Proof.
  split; [intros w | intros ok w]; unfold os.open_rb;
    destruct (os.lookup p (files w)); reflexivity.
Qed.

Lemma path_getsize_quiet p :
  read_only (os.path_getsize p) /\ forall ok, emits ok (os.path_getsize p).
Proof.
  split; [intros w | intros ok w]; unfold os.path_getsize;
    destruct (os.lookup p (files w)); reflexivity.
Qed.

Lemma path_exists_quiet p :
  read_only (os.path_exists p) /\ (forall ok, emits ok (os.path_exists p))
  /\ returns (os.path_exists p).
Proof.
  repeat split. intros w. eexists. reflexivity.
Qed.

Lemma listdir_quiet dir :
  read_only (os.listdir dir) /\ (forall ok, emits ok (os.listdir dir)).
Proof. split; [intros w | intros ok w]; reflexivity. Qed.

Lemma rename_silent src dst ok : emits ok (os.rename src dst).
Proof. intros w. unfold os.rename. destruct (os.exists_ src (files w)); reflexivity. Qed.

Lemma remove_silent p ok : emits ok (os.remove p).
Proof. intros w. unfold os.remove. destruct (os.exists_ p (files w)); reflexivity. Qed.

Create HintDb effects.

#[export] Hint Resolve emits_ret emits_raise read_only_ret read_only_raise
  read_only_emit returns_ret returns_emit rename_silent remove_silent : effects.

Ltac effects_step :=
  first
    [ apply emits_bind | apply emits_try_except
    | apply read_only_bind | apply read_only_try_except
    | apply keeps_files_bind | apply keeps_files_try_except
    | apply emits_ret | apply emits_raise
    | apply read_only_ret | apply read_only_raise | apply read_only_emit
    | apply (proj1 (open_rb_quiet _)) | apply (proj2 (open_rb_quiet _))
    | apply (proj1 (path_getsize_quiet _)) | apply (proj2 (path_getsize_quiet _))
    | apply (proj1 (path_exists_quiet _)) | apply (proj1 (proj2 (path_exists_quiet _)))
    | apply (proj1 (listdir_quiet _)) | apply (proj2 (listdir_quiet _))
    | apply rename_silent | apply remove_silent
    | apply emits_emit; reflexivity
    | apply read_only_keeps_files
    | intro
    | match goal with
      | |- context [match ?x with _ => _ end] => destruct x
      | |- context [if ?x then _ else _] => destruct x
      end ].

Ltac effects := repeat effects_step.

(** ** The upload pipeline *)

Lemma not_post_not_In evs :
  forallb not_post evs = true ->
  forall url title h public c, ~ In (HttpPost url title h public c) evs.
Proof.
  rewrite forallb_forall. intros H url title h public c Hin.
  apply H in Hin. discriminate.
Qed.

Section UploaderEffects.

Variable env : environment.

Lemma generate_file_hash_quiet file_path :
  read_only (VideoUploader.generate_file_hash file_path)
  /\ forall ok, emits ok (VideoUploader.generate_file_hash file_path).
Proof. split; unfold VideoUploader.generate_file_hash; effects. Qed.

Lemma raise_for_status_quiet r :
  read_only (VideoUploader.raise_for_status r)
  /\ forall ok, emits ok (VideoUploader.raise_for_status r).
Proof. split; unfold VideoUploader.raise_for_status; effects. Qed.

Lemma json_quiet r :
  read_only (VideoUploader.json r) /\ forall ok, emits ok (VideoUploader.json r).
Proof. split; unfold VideoUploader.json; effects. Qed.

Lemma get_quiet v key :
  read_only (VideoUploader.get v key) /\ forall ok, emits ok (VideoUploader.get v key).
Proof. split; unfold VideoUploader.get; effects. Qed.

Lemma response_of_quiet e :
  read_only (VideoUploader.response_of e)
  /\ forall ok, emits ok (VideoUploader.response_of e).
Proof. split; unfold VideoUploader.response_of; effects. Qed.

Lemma of_outcome_quiet o :
  read_only (VideoUploader.of_outcome o)
  /\ forall ok, emits ok (VideoUploader.of_outcome o).
Proof. split; unfold VideoUploader.of_outcome; effects. Qed.

Lemma log_response_if_quiet cond resp :
  read_only (VideoUploader.log_response_if cond resp)
  /\ emits not_post (VideoUploader.log_response_if cond resp).
Proof. split; unfold VideoUploader.log_response_if, logger; effects. Qed.

Ltac uploader_step :=
  first
    [ apply (proj1 (generate_file_hash_quiet _)) | apply (proj2 (generate_file_hash_quiet _))
    | apply (proj1 (raise_for_status_quiet _)) | apply (proj2 (raise_for_status_quiet _))
    | apply (proj1 (json_quiet _)) | apply (proj2 (json_quiet _))
    | apply (proj1 (get_quiet _ _)) | apply (proj2 (get_quiet _ _))
    | apply (proj1 (response_of_quiet _)) | apply (proj2 (response_of_quiet _))
    | apply (proj1 (of_outcome_quiet _)) | apply (proj2 (of_outcome_quiet _))
    | apply (proj1 (log_response_if_quiet _ _)) | apply (proj2 (log_response_if_quiet _ _))
    | effects_step ].

(** The slot negotiation and the transfer only read the world and send no
    post-creation request. *)
Lemma get_upload_url_reads file_path :
  read_only (VideoUploader.get_upload_url env file_path)
  /\ emits not_post (VideoUploader.get_upload_url env file_path).
Proof.
  split; unfold VideoUploader.get_upload_url, VideoUploader.slot_request_steps,
    VideoUploader.requests_get, logger;
    repeat uploader_step.
Qed.

Lemma upload_video_reads file_path url :
  read_only (VideoUploader.upload_video env file_path url)
  /\ emits not_post (VideoUploader.upload_video env file_path url).
Proof.
  split; unfold VideoUploader.upload_video, VideoUploader.requests_put, logger;
    repeat uploader_step.
Qed.

Lemma create_post_reads file_hash title category_id :
  read_only (VideoUploader.create_post env file_hash title category_id).
Proof.
  unfold VideoUploader.create_post, VideoUploader.requests_post, logger;
    repeat uploader_step.
Qed.

Lemma upload_video_to_socialverse_reads file_path title category_id :
  read_only (VideoUploader.upload_video_to_socialverse env file_path title category_id).
Proof.
  unfold VideoUploader.upload_video_to_socialverse, VideoUploader.publish_steps, logger.
  repeat first [ apply (proj1 (get_upload_url_reads _))
               | apply (proj1 (upload_video_reads _ _))
               | apply create_post_reads
               | uploader_step ].
Qed.

End UploaderEffects.

Section Publish.

Variable env : environment.

(** What the handler of [upload_video_to_socialverse] does with an
    exception: it is raised again when it has a [response] attribute, and
    the attribute access raises otherwise. *)
Lemma publish_Raise file_path title category_id w e :
  res (VideoUploader.publish_steps env file_path title category_id w) = Raise e ->
  res (VideoUploader.upload_video_to_socialverse env file_path title category_id w)
  = Raise (if is_RequestException e then e
           else AttributeError "object has no attribute 'response'").
Proof.
  intros H. unfold VideoUploader.upload_video_to_socialverse.
  rewrite (try_except_Raise _ _ _ _ _ H eq_refl). simpl.
  destruct e as [kind msg [r|]| | | | | |]; reflexivity.
Qed.

Lemma publish_Return file_path title category_id w post_data :
  res (VideoUploader.publish_steps env file_path title category_id w) = Return post_data ->
  VideoUploader.upload_video_to_socialverse env file_path title category_id w
  = VideoUploader.publish_steps env file_path title category_id w.
Proof.
  intros H. unfold VideoUploader.upload_video_to_socialverse.
  apply (try_except_Return _ _ _ _ _ H).
Qed.

Lemma publish_handler_logs file_path title category_id w :
  forallb not_post (events (VideoUploader.upload_video_to_socialverse env file_path title category_id w))
  = forallb not_post
      (events (VideoUploader.publish_steps env file_path title category_id w)).
Proof.
  unfold VideoUploader.upload_video_to_socialverse, try_except.
  destruct (res (VideoUploader.publish_steps env file_path title category_id w))
    as [a|e]; [reflexivity|].
  simpl. rewrite forallb_app.
  destruct e as [kind msg [r|]| | | | | |]; simpl; rewrite andb_true_r; reflexivity.
Qed.

(** The steps of [publish_steps] when the slot negotiation returned and
    the transfer did not succeed. *)
Lemma publish_steps_transfer_failed file_path title category_id w info :
  res (VideoUploader.get_upload_url env file_path w) = Return info ->
  res (VideoUploader.upload_video env file_path (VideoUploader.upload_url info)
         (after (VideoUploader.get_upload_url env file_path w))) <> Return true ->
  (exists e,
     res (VideoUploader.publish_steps env file_path title category_id w) = Raise e
     /\ (res (VideoUploader.upload_video env file_path (VideoUploader.upload_url info)
                (after (VideoUploader.get_upload_url env file_path w)))
         = Return false -> e = ValueError "Video upload failed"))
  /\ forallb not_post
       (events (VideoUploader.publish_steps env file_path title category_id w)) = true.
Proof.
  intros Hslot Htransfer. unfold VideoUploader.publish_steps.
  rewrite (res_bind_Return _ _ _ _ Hslot), (events_bind_Return _ _ _ _ Hslot).
  pose proof (proj2 (get_upload_url_reads env file_path) w) as Hev1.
  pose proof (proj2 (upload_video_reads env file_path (VideoUploader.upload_url info))
                (after (VideoUploader.get_upload_url env file_path w))) as Hev2.
  rewrite forallb_app, Hev1.
  destruct (res (VideoUploader.upload_video env file_path (VideoUploader.upload_url info)
                   (after (VideoUploader.get_upload_url env file_path w))))
    as [[|]|e] eqn:Hup.
  - contradiction Htransfer. reflexivity.
  - rewrite (res_bind_Return _ _ _ _ Hup), (events_bind_Return _ _ _ _ Hup).
    rewrite forallb_app, Hev2. split.
    + exists (ValueError "Video upload failed"). split; reflexivity.
    + reflexivity.
  - rewrite (res_bind_Raise _ _ _ _ Hup), (events_bind_Raise _ _ _ _ Hup).
    split.
    + exists e. split; [reflexivity | discriminate].
    + rewrite Hev2. reflexivity.
Qed.

End Publish.

(** C1. Whenever the slot negotiation returned and the transfer step did
    not succeed ([upload_video] returned [False] or raised),
    [upload_video_to_socialverse] raises instead of returning, and no
    post-creation request is sent: [create_post] is not invoked. *)
Theorem publish_atomic_on_transfer_failure :
  forall (env : environment) (file_path title : string) (category_id : Z)
         (w : world) (info : VideoUploader.upload_info),
    res (VideoUploader.get_upload_url env file_path w) = Return info ->
    res (VideoUploader.upload_video env file_path (VideoUploader.upload_url info)
           (after (VideoUploader.get_upload_url env file_path w))) <> Return true ->
    let o := VideoUploader.upload_video_to_socialverse env file_path title category_id w in
    (exists e, res o = Raise e)
    /\ (forall url t h public c, ~ In (HttpPost url t h public c) (events o)).
Proof.
  intros env file_path title category_id w info Hslot Htransfer o.
  destruct (publish_steps_transfer_failed env file_path title category_id w info
              Hslot Htransfer) as [[e [He _]] Hev].
  split.
  - eexists. subst o. rewrite (publish_Raise _ _ _ _ _ _ He). reflexivity.
  - apply not_post_not_In. subst o. rewrite publish_handler_logs. exact Hev.
Qed.

Lemma publish_atomic_on_transfer_failure_witness :
  (exists e,
     res (VideoUploader.upload_video_to_socialverse refusing_transfer
            "clip.mp4" "Instagram Reel: sunset" 25 one_clip) = Raise e)
  /\ (forall url t h public c,
        ~ In (HttpPost url t h public c)
             (events (VideoUploader.upload_video_to_socialverse refusing_transfer
                        "clip.mp4" "Instagram Reel: sunset" 25 one_clip))).
Proof.
  apply (publish_atomic_on_transfer_failure refusing_transfer "clip.mp4"
           "Instagram Reel: sunset" 25 one_clip
           (VideoUploader.mk_upload_info (PStr "https://storage.example/slot") (PStr "abc"))).
  - vm_compute. reflexivity.
  - vm_compute. discriminate.
Defined.

(** C9. When the transfer step fails ([upload_video] returns [False]), the
    steps raise the ValueError that describes the failure, but the caller
    of [upload_video_to_socialverse] observes an AttributeError: the
    handler reads [e.response], which the ValueError does not have.  The
    same happens to every exception of the steps that has no [response]
    attribute, that is, to every exception that is not a
    [requests.RequestException]. *)
Theorem publish_failure_replaced_by_AttributeError :
  forall (env : environment) (file_path title : string) (category_id : Z) (w : world),
    (forall info : VideoUploader.upload_info,
        res (VideoUploader.get_upload_url env file_path w) = Return info ->
        res (VideoUploader.upload_video env file_path (VideoUploader.upload_url info)
               (after (VideoUploader.get_upload_url env file_path w))) = Return false ->
        res (VideoUploader.publish_steps env file_path title category_id w)
          = Raise (ValueError "Video upload failed")
        /\ res (VideoUploader.upload_video_to_socialverse env file_path title category_id w)
          = Raise (AttributeError "object has no attribute 'response'"))
    /\ (forall e : exn,
          res (VideoUploader.publish_steps env file_path title category_id w) = Raise e ->
          is_RequestException e = false ->
          res (VideoUploader.upload_video_to_socialverse env file_path title category_id w)
          = Raise (AttributeError "object has no attribute 'response'")).
Proof.
  intros env file_path title category_id w.
  assert (forall e : exn,
          res (VideoUploader.publish_steps env file_path title category_id w) = Raise e ->
          is_RequestException e = false ->
          res (VideoUploader.upload_video_to_socialverse env file_path title category_id w)
          = Raise (AttributeError "object has no attribute 'response'")) as Hgen.
  { intros e He Hattr. rewrite (publish_Raise _ _ _ _ _ _ He), Hattr. reflexivity. }
  split; [| exact Hgen].
  intros info Hslot Hfalse.
  destruct (publish_steps_transfer_failed env file_path title category_id w info Hslot)
    as [[e [He Hval]] _].
  - rewrite Hfalse. discriminate.
  - specialize (Hval Hfalse). subst e. split; [exact He |].
    apply (Hgen _ He). reflexivity.
Qed.

Lemma publish_failure_replaced_by_AttributeError_witness :
  res (VideoUploader.publish_steps refusing_transfer "clip.mp4" "Instagram Reel: sunset"
         25 one_clip)
    = Raise (ValueError "Video upload failed")
  /\ res (VideoUploader.upload_video_to_socialverse refusing_transfer "clip.mp4"
            "Instagram Reel: sunset" 25 one_clip)
    = Raise (AttributeError "object has no attribute 'response'").
Proof.
  apply (proj1 (publish_failure_replaced_by_AttributeError refusing_transfer "clip.mp4"
                  "Instagram Reel: sunset" 25 one_clip)
           (VideoUploader.mk_upload_info (PStr "https://storage.example/slot") (PStr "abc"))).
  - vm_compute. reflexivity.
  - vm_compute. reflexivity.
Defined.

(** ** Slot negotiation *)

(** In [get_upload_url], an exception of the steps reaches the caller
    unchanged: the handler logs and raises it again. *)
Lemma get_upload_url_Raise env file_path w e :
  res (VideoUploader.slot_request_steps env file_path w) = Raise e ->
  res (VideoUploader.get_upload_url env file_path w) = Raise e.
Proof.
  intros He. unfold VideoUploader.get_upload_url, try_except. rewrite He.
  destruct e as [kind msg [r|]| | | | | |]; try exact He; simpl.
  - destruct (VideoUploader.is_error_status r); reflexivity.
  - reflexivity.
Qed.

Lemma get_upload_url_Return env file_path w info :
  res (VideoUploader.slot_request_steps env file_path w) = Return info ->
  VideoUploader.get_upload_url env file_path w
  = VideoUploader.slot_request_steps env file_path w.
Proof. intros H. apply (try_except_Return _ _ _ _ _ H). Qed.

(** From [res (bind m k w) = Return _]: [m] returned some [a], and the
    hypothesis goes on with [k a]. *)
Tactic Notation "bind_step" hyp(H) "as" ident(a) ident(E) :=
  match type of H with
  | res (bind ?m ?k ?w) = Return _ =>
      destruct (res (m w)) as [a|] eqn:E;
      [ rewrite (res_bind_Return _ _ _ _ E) in H
      | rewrite (res_bind_Raise _ _ _ _ E) in H; discriminate H ]
  end.

Tactic Notation "bind_step" hyp(H) :=
  let a := fresh "a" in let E := fresh "E" in bind_step H as a E.

(** C7, as the code has it. [get_upload_url] raises to its caller whenever
    the remote API answers the slot request with a 4xx or 5xx status, with
    a body that is not JSON, or with JSON that is not an object. *)
Theorem get_upload_url_raises_on_error_response :
  forall (env : environment) (file_path : string) (w : world) (r : response),
    (forall url h size, remote_get env url h size = Responds r) ->
    VideoUploader.is_error_status r = true
    \/ decoded r = None
    \/ (exists v, decoded r = Some v /\ is_dict v = false) ->
    exists e, res (VideoUploader.get_upload_url env file_path w) = Raise e.
Proof.
  intros env file_path w r Hremote Hbad.
  destruct (res (VideoUploader.slot_request_steps env file_path w)) eqn:Hbody;
    [| eexists; apply get_upload_url_Raise; eassumption].
  exfalso. unfold VideoUploader.slot_request_steps in Hbody.
  bind_step Hbody. bind_step Hbody. bind_step Hbody as response Hget.
  assert (response = r) as ->.
  { unfold VideoUploader.requests_get, bind, emit in Hget. simpl in Hget.
    rewrite Hremote in Hget. simpl in Hget. congruence. }
  bind_step Hbody as ok Hstatus.
  unfold VideoUploader.raise_for_status in Hstatus.
  destruct (VideoUploader.is_error_status r) eqn:Herr; [discriminate Hstatus|].
  bind_step Hbody as upload_data Hjson.
  unfold VideoUploader.json in Hjson.
  destruct (decoded r) as [v|] eqn:Hdecoded; [| discriminate Hjson].
  injection Hjson as <-.
  destruct Hbad as [Hbad | [Hbad | [v' [Hv' Hdict]]]]; try discriminate.
  injection Hv' as <-.
  bind_step Hbody. bind_step Hbody. bind_step Hbody.
  bind_step Hbody as url_value Hurl.
  destruct v; try discriminate Hurl. discriminate Hdict.
Qed.

Lemma get_upload_url_raises_on_error_response_witness :
  exists e,
    res (VideoUploader.get_upload_url
           (answering (mk_response 500 "Internal Server Error" None))
           "clip.mp4" one_clip) = Raise e.
Proof.
  apply (get_upload_url_raises_on_error_response
           (answering (mk_response 500 "Internal Server Error" None))
           "clip.mp4" one_clip (mk_response 500 "Internal Server Error" None)).
  - intros url h size. reflexivity.
  - left. reflexivity.
Defined.

(** C7 as stated fails: a 200 answer whose JSON object lacks [url] and
    [hash] makes [get_upload_url] return a slot of [None]s, and an answer
    outside the 2xx range that is not an error status is not checked. *)
Lemma get_upload_url_returns_on_malformed_payload :
  (spec_malformed_payload empty_object = true
   /\ res (VideoUploader.get_upload_url (answering empty_object) "clip.mp4" one_clip)
      = Return (VideoUploader.mk_upload_info PNone PNone))
  /\ (spec_non_2xx multiple_choices = true
      /\ res (VideoUploader.get_upload_url (answering multiple_choices) "clip.mp4" one_clip)
         = Return (VideoUploader.mk_upload_info
                     (PStr "https://storage.example/slot") (PStr "abc"))).
Proof. vm_compute. repeat split. Qed.

(** ** The upload loop of [main] *)

Arguments VideoUploader.upload_video_to_socialverse : simpl never.
Arguments VideoUploader.publish_steps : simpl never.
Arguments VideoUploader.get_upload_url : simpl never.
Arguments VideoUploader.slot_request_steps : simpl never.
Arguments VideoUploader.upload_video : simpl never.
Arguments VideoUploader.create_post : simpl never.
Arguments VideoUploader.generate_file_hash : simpl never.

Section UploadLoop.

Variable env : environment.
Variable keyword : string.

#[local] Abbreviation title := ("Instagram Reel: " ++ keyword)%string.
#[local] Abbreviation publish video_path :=
  (VideoUploader.upload_video_to_socialverse env video_path title 25).

(** A publish call that returns has read the file and returns the JSON
    object of the created post. *)
Lemma publish_returns_for_existing_file video_path w post :
  res (publish video_path w) = Return post ->
  os.exists_ video_path (files w) = true /\ is_dict post = true.
Proof.
  intros H.
  destruct (res (VideoUploader.publish_steps env video_path title 25 w)) eqn:Hsteps.
  2:{ rewrite (publish_Raise _ _ _ _ _ _ Hsteps) in H. discriminate. }
  rewrite (publish_Return _ _ _ _ _ _ Hsteps), Hsteps in H. injection H as ->.
  unfold VideoUploader.publish_steps in Hsteps.
  bind_step Hsteps. split.
  - destruct (res (VideoUploader.slot_request_steps env video_path w)) eqn:Hslot.
    2:{ rewrite (get_upload_url_Raise _ _ _ _ Hslot) in E. discriminate. }
    unfold VideoUploader.slot_request_steps in Hslot. bind_step Hslot.
    unfold VideoUploader.generate_file_hash in E0. bind_step E0.
    unfold os.open_rb in E1. unfold os.exists_.
    destruct (os.lookup video_path (files w)); [reflexivity | discriminate].
  - bind_step Hsteps. bind_step Hsteps. bind_step Hsteps as post_data Hcreate.
    unfold ret in Hsteps. simpl in Hsteps. injection Hsteps as ->.
    unfold VideoUploader.create_post in Hcreate.
    apply try_except_reraise in Hcreate.
    2:{ intros e w'. unfold bind, logger, emit.
        destruct e as [kind msg [r|]| | | | | |]; simpl; eexists; reflexivity. }
    bind_step Hcreate. bind_step Hcreate. bind_step Hcreate.
    bind_step Hcreate as decoded_post Hjson. bind_step Hcreate as post_id Hid.
    destruct decoded_post; try discriminate Hid.
    bind_step Hcreate.
    unfold ret in Hcreate. simpl in Hcreate. injection Hcreate as <-. reflexivity.
Qed.

Lemma publish_read_only video_path w : after (publish video_path w) = w.
Proof. apply upload_video_to_socialverse_reads. Qed.

(** One iteration whose publish call raises: the exception leaves the
    loop, nothing is removed and nothing else is done. *)
Lemma upload_each_Raise video_path rest w e :
  res (publish video_path w) = Raise e ->
  Main.upload_each env keyword (video_path :: rest) w
  = mk_outcome (Raise e) w (events (publish video_path w)).
Proof.
  intros H. cbn [Main.upload_each].
  rewrite (bind_Raise _ _ _ _ H), publish_read_only. reflexivity.
Qed.

(** One iteration whose publish call returns: the file is removed and the
    loop goes on with the other files. *)
Lemma upload_each_Return video_path rest w post :
  res (publish video_path w) = Return post ->
  Main.upload_each env keyword (video_path :: rest) w
  = let later := Main.upload_each env keyword rest
                   (mk_world (os.unlink video_path (files w)) (searches w)) in
    mk_outcome (res later) (after later)
      (events (publish video_path w) ++ Print "Video uploaded. Post ID" :: events later).
Proof.
  intros H. destruct (publish_returns_for_existing_file _ _ _ H) as [Hfile Hdict].
  cbn [Main.upload_each].
  rewrite (bind_Return _ _ _ _ H), publish_read_only.
  destruct post; try discriminate Hdict.
  unfold bind, os.remove, VideoUploader.get, emit, ret. rewrite Hfile. reflexivity.
Qed.

Lemma upload_each_app done rest w :
  res (Main.upload_each env keyword done w) = Return tt ->
  Main.upload_each env keyword (done ++ rest) w
  = let later := Main.upload_each env keyword rest
                   (after (Main.upload_each env keyword done w)) in
    mk_outcome (res later) (after later)
      (events (Main.upload_each env keyword done w) ++ events later).
Proof.
  revert w. induction done as [|video_path done IH]; intros w Hdone.
  - simpl. destruct (Main.upload_each env keyword rest w). reflexivity.
  - destruct (res (publish video_path w)) as [post|e] eqn:Hp.
    + rewrite (upload_each_Return video_path done w post Hp) in Hdone |- *.
      cbn [res after events] in Hdone |- *.
      rewrite <- List.app_comm_cons.
      rewrite (upload_each_Return video_path (done ++ rest) w post Hp).
      cbn zeta. rewrite (IH _ Hdone). cbn [res after events].
      rewrite <- List.app_assoc. reflexivity.
    + rewrite (upload_each_Raise _ _ _ _ Hp) in Hdone. discriminate Hdone.
Qed.

(** The files after the loop are files that were there before. *)
Lemma upload_each_only_removes l : forall w video_path,
  os.exists_ video_path (files (after (Main.upload_each env keyword l w))) = true ->
  os.exists_ video_path (files w) = true.
Proof.
  induction l as [|p l IH]; intros w video_path Hafter.
  - exact Hafter.
  - destruct (res (publish p w)) as [post|e] eqn:Hp.
    + rewrite (upload_each_Return _ _ _ _ Hp) in Hafter. cbn [after] in Hafter.
      apply IH in Hafter. cbn [files] in Hafter.
      unfold os.exists_ in *. revert Hafter. clear.
      induction (files w) as [|[q c] fs IHfs]; simpl; [trivial|].
      destruct (String.eqb p q) eqn:Epq; simpl.
      * destruct (String.eqb video_path q); auto.
      * destruct (String.eqb video_path q); auto.
    + rewrite (upload_each_Raise _ _ _ _ Hp) in Hafter. exact Hafter.
Qed.

Lemma exists_unlink_other video_path p fs :
  String.eqb video_path p = false ->
  os.exists_ video_path (os.unlink p fs) = os.exists_ video_path fs.
Proof.
  intros Hne. unfold os.exists_. induction fs as [|[q c] fs IH]; simpl; [reflexivity|].
  destruct (String.eqb p q) eqn:Epq; simpl.
  - apply String.eqb_eq in Epq. subst q. rewrite Hne. exact IH.
  - destruct (String.eqb video_path q); [reflexivity | exact IH].
Qed.

(** A file that the loop removed is a file of the list whose own publish
    call returned, after every file before it had been published. *)
Lemma upload_each_removed l : forall w video_path,
  os.exists_ video_path (files w) = true ->
  os.exists_ video_path (files (after (Main.upload_each env keyword l w))) = false ->
  exists done rest post,
    l = done ++ video_path :: rest
    /\ res (Main.upload_each env keyword done w) = Return tt
    /\ res (publish video_path (after (Main.upload_each env keyword done w)))
       = Return post.
Proof.
  induction l as [|p l IH]; intros w video_path Hbefore Hafter.
  - simpl in Hafter. congruence.
  - destruct (res (publish p w)) as [post|e] eqn:Hp.
    + destruct (String.eqb video_path p) eqn:Hsame.
      * apply String.eqb_eq in Hsame. subst p.
        exists [], l, post. repeat split. exact Hp.
      * rewrite (upload_each_Return p l w post Hp) in Hafter. cbn [after] in Hafter.
        destruct (IH (mk_world (os.unlink p (files w)) (searches w)) video_path)
          as [done [rest [post' [Hl [Hdone Hown]]]]].
        { cbn [files]. rewrite exists_unlink_other; assumption. }
        { exact Hafter. }
        exists (p :: done), rest, post'.
        rewrite (upload_each_Return p done w post Hp). cbn [res after].
        subst l. repeat split; assumption.
    + rewrite (upload_each_Raise p l w e Hp) in Hafter. cbn [after] in Hafter.
      congruence.
Qed.

(** The first publish call that raises ends the loop. *)
Lemma upload_each_first_failure done video_path rest w e :
  res (Main.upload_each env keyword done w) = Return tt ->
  res (publish video_path (after (Main.upload_each env keyword done w))) = Raise e ->
  Main.upload_each env keyword (done ++ video_path :: rest) w
  = mk_outcome (Raise e) (after (Main.upload_each env keyword done w))
      (events (Main.upload_each env keyword done w)
       ++ events (publish video_path (after (Main.upload_each env keyword done w)))).
Proof.
  intros Hdone Hfail.
  rewrite (upload_each_app done (video_path :: rest) w Hdone). cbn zeta.
  rewrite (upload_each_Raise video_path rest _ e Hfail). reflexivity.
Qed.

End UploadLoop.

Arguments Main.upload_each : simpl never.

(** The handler around the loop logs and returns. *)
Lemma upload_phase_outcome env keyword downloaded_files w :
  res (Main.upload_phase env keyword downloaded_files w) = Return tt
  /\ after (Main.upload_phase env keyword downloaded_files w)
     = after (Main.upload_each env keyword downloaded_files w)
  /\ (forall e,
        res (Main.upload_each env keyword downloaded_files w) = Raise e ->
        events (Main.upload_phase env keyword downloaded_files w)
        = events (Main.upload_each env keyword downloaded_files w)
          ++ [Log ERROR ("Upload failed: " ++ str_of_exn e)]).
Proof.
  unfold Main.upload_phase. destruct downloaded_files as [|p l].
  - split; [reflexivity | split; [reflexivity |]]. intros e He. discriminate He.
  - cbn [Main.nonempty]. unfold try_except.
    destruct (res (Main.upload_each env keyword (p :: l) w)) as [[]|e] eqn:Hloop.
    + split; [exact Hloop | split; [reflexivity |]]. intros e He. discriminate He.
    + split; [reflexivity | split; [reflexivity |]].
      intros e' He'. injection He' as <-. reflexivity.
Qed.

(** C2, as the code has it. No exception leaves the upload part.  A file
    is removed only if its own publish call returned, and then every file
    before it in the list had been published and removed.  The first
    publish call that raises is logged and ends the loop: the world stays
    as the files before it left it, so neither that file nor the files
    after it are removed, and the events end with that call and the log
    line, so no file after it is published. *)
Theorem upload_loop_stops_at_first_failure :
  forall (env : environment) (keyword : string) (downloaded_files : list string)
         (w : world),
    let publish video_path :=
      VideoUploader.upload_video_to_socialverse env video_path
        ("Instagram Reel: " ++ keyword) 25 in
    let o := Main.upload_phase env keyword downloaded_files w in
    res o = Return tt
    /\ (forall video_path,
          os.exists_ video_path (files w) = true ->
          os.exists_ video_path (files (after o)) = false ->
          exists done rest post,
            downloaded_files = done ++ video_path :: rest
            /\ res (Main.upload_each env keyword done w) = Return tt
            /\ res (publish video_path (after (Main.upload_each env keyword done w)))
               = Return post)
    /\ (forall done video_path rest e,
          downloaded_files = done ++ video_path :: rest ->
          res (Main.upload_each env keyword done w) = Return tt ->
          res (publish video_path (after (Main.upload_each env keyword done w)))
            = Raise e ->
          after o = after (Main.upload_each env keyword done w)
          /\ events o
             = events (Main.upload_each env keyword done w)
               ++ events (publish video_path (after (Main.upload_each env keyword done w)))
               ++ [Log ERROR ("Upload failed: " ++ str_of_exn e)]).
Proof.
  intros env keyword downloaded_files w publish o. subst publish o.
  destruct (upload_phase_outcome env keyword downloaded_files w)
    as [Hres [Hafter Hevents]].
  split; [exact Hres | split].
  - intros video_path Hbefore Hgone. rewrite Hafter in Hgone.
    exact (upload_each_removed env keyword downloaded_files w video_path Hbefore Hgone).
  - intros done video_path rest e Hl Hdone Hfail.
    pose proof (upload_each_first_failure env keyword done video_path rest w e
                  Hdone Hfail) as Hloop.
    rewrite <- Hl in Hloop.
    rewrite Hafter, (Hevents e) by (rewrite Hloop; reflexivity).
    rewrite Hloop. cbn [after events]. split; [reflexivity|].
    rewrite <- List.app_assoc. reflexivity.
Qed.

Lemma upload_loop_stops_at_first_failure_witness :
  after (Main.upload_phase refusing_transfer "sunset" [first_clip; second_clip] two_clips)
  = two_clips
  /\ events (Main.upload_phase refusing_transfer "sunset" [first_clip; second_clip]
               two_clips)
     = events (VideoUploader.upload_video_to_socialverse refusing_transfer first_clip
                 "Instagram Reel: sunset" 25 two_clips)
       ++ [Log ERROR "Upload failed: object has no attribute 'response'"].
Proof.
  apply (proj2 (proj2 (upload_loop_stops_at_first_failure refusing_transfer "sunset"
                         [first_clip; second_clip] two_clips))
           [] first_clip [second_clip]
           (AttributeError "object has no attribute 'response'")).
  - reflexivity.
  - reflexivity.
  - vm_compute. reflexivity.
Defined.

(** C2 as stated fails: the publish call of the first of two files raises,
    and the loop ends there.  The only slot request carries the digest of
    the first file; the second file is never published. *)
Lemma upload_failure_aborts_remaining_files :
  (exists e,
     res (VideoUploader.upload_video_to_socialverse refusing_transfer first_clip
            "Instagram Reel: sunset" 25 two_clips) = Raise e)
  /\ res (VideoUploader.get_upload_url refusing_transfer second_clip two_clips)
     = Return (VideoUploader.mk_upload_info (PStr "https://storage.example/slot")
                 (PStr "abc"))
  /\ events (Main.upload_phase refusing_transfer "sunset" [first_clip; second_clip]
               two_clips)
     = [ HttpGet "https://api.socialverseapp.com/posts/generate-upload-url"
           (hashlib.sha256_hexdigest (b "abc")) 3;
         Print "upload data";
         Log INFO ("Upload URL generated for file: " ++ first_clip);
         HttpPut (PStr "https://storage.example/slot") (b "abc");
         Log ERROR "Error uploading video: HTTPError";
         Log ERROR "Complete upload process failed: Video upload failed";
         Log ERROR "Upload failed: object has no attribute 'response'" ]
  /\ hashlib.sha256_hexdigest (b "xyz") <> hashlib.sha256_hexdigest (b "abc").
Proof.
  split; [| split; [| split]].
  - eexists. vm_compute. reflexivity.
  - vm_compute. reflexivity.
  - vm_compute. reflexivity.
  - vm_compute. discriminate.
Qed.

(** ** Fetching one video *)

Lemma index_from_end_short {A} (l : list A) :
  (List.length l < 2)%nat -> Str.index_from_end l 2 = None.
Proof.
  intros Hlen. unfold Str.index_from_end. apply nth_error_None.
  rewrite List.length_rev. simpl. lia.
Qed.

(** C6. When no shortcode can be extracted from the URL (the reel marker
    is absent, the URL has fewer than two segments, or the segment before
    the last one is missing or empty), [download_video] returns [None],
    leaves the world as it was and does not call the download
    collaborator. *)
Theorem download_video_without_shortcode :
  forall (env : environment) (download_path video_url : string) (index : nat)
         (w : world),
    Str.contains "/reel/" video_url = false
    \/ (List.length (Str.split "/" video_url) < 2)%nat
    \/ Str.index_from_end (Str.split "/" video_url) 2 = None
    \/ Str.index_from_end (Str.split "/" video_url) 2 = Some "" ->
    let o := VideoDownloader.download_video env download_path video_url index w in
    res o = Return None
    /\ after o = w
    /\ forallb (fun ev => negb (is_download ev)) (events o) = true.
Proof.
  intros env download_path video_url index w Hno o. subst o.
  unfold VideoDownloader.download_video, VideoDownloader.extract_shortcode.
  destruct (Str.contains "/reel/" video_url) eqn:Hmarker.
  - assert (Str.index_from_end (Str.split "/" video_url) 2 = None
            \/ Str.index_from_end (Str.split "/" video_url) 2 = Some "") as Hseg.
    { destruct Hno as [H | [H | [H | H]]]; auto.
      - discriminate H.
      - left. apply index_from_end_short. exact H. }
    destruct Hseg as [-> | ->]; repeat split.
  - repeat split.
Qed.

Lemma download_video_without_shortcode_witness :
  res (VideoDownloader.download_video refusing_transfer "instagram_videos"
         "https://www.instagram.com/p/XYZ/" 1 one_clip) = Return None
  /\ after (VideoDownloader.download_video refusing_transfer "instagram_videos"
              "https://www.instagram.com/p/XYZ/" 1 one_clip) = one_clip
  /\ forallb (fun ev => negb (is_download ev))
       (events (VideoDownloader.download_video refusing_transfer "instagram_videos"
                  "https://www.instagram.com/p/XYZ/" 1 one_clip)) = true.
Proof.
  apply (download_video_without_shortcode refusing_transfer "instagram_videos"
           "https://www.instagram.com/p/XYZ/" 1 one_clip).
  left. reflexivity.
Defined.

(** Renaming gives the destination the content of the source. *)
Lemma lookup_move src dst fs content :
  os.lookup src fs = Some content ->
  os.lookup dst (os.move src dst fs) = Some content.
Proof.
  unfold os.move. destruct (String.eqb src dst) eqn:Hsame.
  - apply String.eqb_eq in Hsame. subst dst. trivial.
  - induction fs as [|[q c] fs IH]; simpl; [discriminate|].
    destruct (String.eqb src q) eqn:Hsq.
    + apply String.eqb_eq in Hsq. subst q.
      rewrite String.eqb_sym, Hsame. simpl.
      rewrite String.eqb_refl. simpl. rewrite String.eqb_refl. trivial.
    + destruct (String.eqb dst q) eqn:Hdq; simpl.
      * exact IH.
      * rewrite Hsq. simpl. rewrite Hdq. exact IH.
Qed.

Section Fetch.

Variable env : environment.
Variable download_path : string.

(** The inner [try] of [download_video] when the collaborator returns and
    the listing has a name that ends in [.mp4]. *)
Lemma rename_after_download shortcode full_path w fs filename content :
  download_post env shortcode (files w) = inr fs ->
  find (fun f => Str.endswith f ".mp4") (os.entries download_path fs) = Some filename ->
  os.lookup (os.path_join download_path filename) fs = Some content ->
  bind (VideoDownloader.instaloader_download env shortcode)
       (fun _ => bind (VideoDownloader.rename_first_mp4 download_path full_path)
                      (fun _ => ret true)) w
  = mk_outcome (Return true)
      (mk_world (os.move (os.path_join download_path filename) full_path fs) (searches w))
      [InstaloaderDownload shortcode].
Proof.
  intros Hpost Hfind Hcontent.
  unfold bind, VideoDownloader.instaloader_download, VideoDownloader.rename_first_mp4,
    bind, os.listdir, os.rename, ret.
  rewrite Hpost. cbn [res after events files searches]. rewrite Hfind.
  cbn [res after events files searches].
  unfold os.exists_. rewrite Hcontent. reflexivity.
Qed.

End Fetch.

(** C10. After the collaborator has returned, [download_video] renames the
    first name of the directory listing that ends in [.mp4] to the target
    name, whatever file that is; the returned path then holds the content
    of that file.  In a directory that still holds the video of an earlier
    fetch, the path returned for the post BBB holds the video of the post
    AAA, while the file that the fetch of BBB wrote stays under its own
    name. *)
Theorem download_video_renames_first_mp4 :
  (forall (env : environment) (download_path video_url : string) (index : nat)
          (w : world) (shortcode : string) (fs : filesystem) (filename : string)
          (content : bytes),
      res (VideoDownloader.extract_shortcode video_url w) = Return (Some shortcode) ->
      shortcode <> "" ->
      download_post env shortcode (files w) = inr fs ->
      find (fun f => Str.endswith f ".mp4") (os.entries download_path fs)
        = Some filename ->
      os.lookup (os.path_join download_path filename) fs = Some content ->
      let full_path :=
        os.path_join download_path (VideoDownloader.sanitized_filename index shortcode) in
      let o := VideoDownloader.download_video env download_path video_url index w in
      files (after o) = os.move (os.path_join download_path filename) full_path fs
      /\ os.lookup full_path (files (after o)) = Some content
      /\ res o = Return (if (0 <? Z.of_nat (List.length content))%Z
                         then Some full_path else None))
  /\ (let o := VideoDownloader.download_video instagram "instagram_videos"
                 reel_BBB 2 after_first_fetch in
      res o = Return (Some second_clip)
      /\ files (after o)
         = [ (second_clip, b "video of AAA");
             ("instagram_videos/2024-05-02_11-30-00_UTC.mp4", b "video of BBB") ]).
Proof.
  split.
  - intros env download_path video_url index w shortcode fs filename content
           Hcode Hnonempty Hpost Hfind Hcontent full_path o.
    assert (VideoDownloader.extract_shortcode video_url w
            = mk_outcome (Return (Some shortcode)) w []) as Hextract.
    { revert Hcode. unfold VideoDownloader.extract_shortcode.
      destruct (Str.contains "/reel/" video_url); [| discriminate].
      destruct (Str.index_from_end (Str.split "/" video_url) 2); [| discriminate].
      unfold ret. simpl. congruence. }
    destruct shortcode as [|c shortcode]; [congruence|].
    subst o full_path.
    remember (os.path_join download_path
                (VideoDownloader.sanitized_filename index (String c shortcode)))
      as full_path eqn:Hfull.
    pose proof (lookup_move _ full_path _ _ Hcontent) as Hmoved.
    unfold VideoDownloader.download_video.
    match goal with
    | |- context [try_except ?body ?catches ?handler w] =>
        assert (body w
                = mk_outcome
                    (Return (if (0 <? Z.of_nat (List.length content))%Z
                             then Some full_path else None))
                    (mk_world (os.move (os.path_join download_path filename)
                                       full_path fs) (searches w))
                    ([] ++ [InstaloaderDownload (String c shortcode)]
                        ++ (if (0 <? Z.of_nat (List.length content))%Z
                            then [Log INFO ("Successfully downloaded video: "
                                            ++ full_path)]
                            else []))) as Hbody
    end.
    { rewrite (bind_outcome _ _ _ _ _ _ Hextract). cbn beta iota.
      rewrite <- Hfull.
      erewrite bind_outcome.
      2:{ apply try_except_outcome.
          exact (rename_after_download env download_path (String c shortcode) full_path
                   w fs filename content Hpost Hfind Hcontent). }
      cbn beta iota.
      unfold bind, os.path_exists, os.path_getsize, os.exists_, ret, logger, emit.
      cbn [res after events files]. rewrite Hmoved. cbn [res after events files].
      rewrite ?Hmoved. cbn [res after events files].
      destruct (0 <? Z.of_nat (List.length content))%Z; reflexivity. }
    rewrite (try_except_outcome _ _ _ _ _ _ _ Hbody). cbn [res after events files].
    repeat split. exact Hmoved.
  - vm_compute. repeat split.
Qed.

Lemma download_video_renames_first_mp4_witness :
  files (after (VideoDownloader.download_video instagram "instagram_videos"
                  reel_BBB 2 after_first_fetch))
  = os.move first_clip second_clip
      [ (first_clip, b "video of AAA");
        ("instagram_videos/2024-05-02_11-30-00_UTC.mp4", b "video of BBB") ]
  /\ os.lookup second_clip
       (files (after (VideoDownloader.download_video instagram "instagram_videos"
                        reel_BBB 2 after_first_fetch)))
     = Some (b "video of AAA")
  /\ res (VideoDownloader.download_video instagram "instagram_videos"
            reel_BBB 2 after_first_fetch)
     = Return (Some second_clip).
Proof.
  apply (proj1 download_video_renames_first_mp4 instagram "instagram_videos"
           reel_BBB 2 after_first_fetch "BBB"
           [ (first_clip, b "video of AAA");
             ("instagram_videos/2024-05-02_11-30-00_UTC.mp4", b "video of BBB") ]
           "instagram_video_1_AAA.mp4" (b "video of AAA")).
  - reflexivity.
  - discriminate.
  - reflexivity.
  - reflexivity.
  - reflexivity.
Defined.

(** ** Fetching all videos *)

(** C5 fails on two links whose fetches both succeed: the second fetch
    finds the file of the first one at the head of the listing and renames
    it, so the first returned path names no file when [download_videos]
    returns, and the second returned path holds the video of the first
    post. *)
Theorem download_videos_returns_missing_file :
  let o := VideoDownloader.download_videos instagram "instagram_videos" "sunset" 5
             two_reels in
  res o = Return [first_clip; second_clip]
  /\ os.exists_ first_clip (files (after o)) = false
  /\ os.lookup second_clip (files (after o)) = Some (b "video of AAA").
Proof. vm_compute. repeat split. Qed.

(** ** The discovery phase of [main] *)

Lemma attempts_app evs1 evs2 : attempts (evs1 ++ evs2) = (attempts evs1 + attempts evs2)%nat.
Proof. unfold attempts. rewrite filter_app, List.length_app. reflexivity. Qed.

Lemma attempts_fetch_events evs : forallb fetch_event evs = true -> attempts evs = 0%nat.
Proof.
  unfold attempts. induction evs as [|ev evs IH]; simpl; [reflexivity|].
  intros H. apply andb_true_iff in H. destruct H as [Hev Hevs].
  destruct ev; try discriminate Hev; simpl; auto.
Qed.

Lemma fetch_events_no_sleep evs :
  forallb fetch_event evs = true -> forallb (fun ev => negb (is_sleep ev)) evs = true.
Proof.
  induction evs as [|ev evs IH]; simpl; [reflexivity|].
  intros H. apply andb_true_iff in H. destruct H as [Hev Hevs].
  rewrite (IH Hevs). destruct ev; try discriminate Hev; reflexivity.
Qed.

Section DownloaderEffects.

Variable env : environment.
Variable download_path : string.

Lemma instaloader_download_emits shortcode :
  emits fetch_event (VideoDownloader.instaloader_download env shortcode).
Proof.
  intros w. unfold VideoDownloader.instaloader_download.
  destruct (download_post env shortcode (files w)); reflexivity.
Qed.

Lemma extract_shortcode_quiet video_url :
  emits fetch_event (VideoDownloader.extract_shortcode video_url).
Proof. unfold VideoDownloader.extract_shortcode. effects. Qed.

Lemma rename_first_mp4_emits full_path :
  emits fetch_event (VideoDownloader.rename_first_mp4 download_path full_path).
Proof. unfold VideoDownloader.rename_first_mp4. effects. Qed.

(** [download_video] never raises past its boundary, and causes only log
    lines and the call of the collaborator. *)
Lemma download_video_soft video_url index :
  returns (VideoDownloader.download_video env download_path video_url index)
  /\ emits fetch_event (VideoDownloader.download_video env download_path video_url index).
Proof.
  split.
  - unfold VideoDownloader.download_video. apply returns_try_except.
    intros e. apply returns_bind; [apply returns_emit | intros; apply returns_ret].
  - unfold VideoDownloader.download_video, logger.
    repeat first [ apply instaloader_download_emits
                 | apply extract_shortcode_quiet
                 | apply rename_first_mp4_emits
                 | effects_step ].
Qed.

Lemma gather_soft (tasks : list (M (option string))) :
  Forall (fun task => returns task /\ emits fetch_event task) tasks ->
  returns (VideoDownloader.gather tasks) /\ emits fetch_event (VideoDownloader.gather tasks).
Proof.
  induction 1 as [|task tasks [Hret Hemit] _ [IHret IHemit]]; simpl.
  - split; [apply returns_ret | apply emits_ret].
  - split.
    + apply returns_bind; [assumption|]. intros v.
      apply returns_bind; [assumption|]. intros vs. apply returns_ret.
    + apply emits_bind; [assumption|]. intros v.
      apply emits_bind; [assumption|]. intros vs. apply emits_ret.
Qed.

Lemma filter_reel_links_soft max_videos result_links : forall reel_links,
  returns (VideoDownloader.filter_reel_links max_videos result_links reel_links)
  /\ emits fetch_event (VideoDownloader.filter_reel_links max_videos result_links reel_links).
Proof.
  induction result_links as [|link rest IH]; intros reel_links; simpl.
  - split; [apply returns_ret | apply emits_ret].
  - destruct link as [[href|]|e].
    + destruct (negb (String.eqb href "") && Str.contains "/reel/" href); [| apply IH].
      destruct (max_videos <=? _)%Z; [| apply IH].
      split; [apply returns_ret | apply emits_ret].
    + apply IH.
    + split.
      * apply returns_bind; [apply returns_emit | intros; apply IH].
      * apply emits_bind; [apply emits_emit; reflexivity | intros; apply IH].
Qed.

(** [find_video_links] never raises; it makes one round trip to the search
    surface and logs. *)
Lemma find_video_links_soft keyword max_videos w :
  (exists links, res (VideoDownloader.find_video_links keyword max_videos w) = Return links)
  /\ exists logs,
       events (VideoDownloader.find_video_links keyword max_videos w)
       = DriverGet "https://google.com" :: logs
       /\ forallb fetch_event logs = true.
Proof.
  unfold VideoDownloader.find_video_links.
  split.
  - apply returns_try_except. intros e.
    apply returns_bind; [apply returns_emit | intros; apply returns_ret].
  - set (query := ("site:instagram.com " ++ keyword ++ " reel")%string).
    destruct (searches w) as [|[e|links] later] eqn:Hs.
    + assert (VideoDownloader.search_results query w
              = mk_outcome (Raise (WebDriverException "timeout")) w
                  [DriverGet "https://google.com"]) as Hsearch.
      { unfold VideoDownloader.search_results. rewrite Hs. reflexivity. }
      rewrite (try_except_raise_outcome _ _ _ _ _ _ _
                 (bind_raise_outcome _ _ _ _ _ _ Hsearch) eq_refl).
      eexists. split; reflexivity.
    + assert (VideoDownloader.search_results query w
              = mk_outcome (Raise e) (mk_world (files w) later)
                  [DriverGet "https://google.com"]) as Hsearch.
      { unfold VideoDownloader.search_results. rewrite Hs. reflexivity. }
      rewrite (try_except_raise_outcome _ _ _ _ _ _ _
                 (bind_raise_outcome _ _ _ _ _ _ Hsearch) eq_refl).
      eexists. split; reflexivity.
    + assert (VideoDownloader.search_results query w
              = mk_outcome (Return links) (mk_world (files w) later)
                  [DriverGet "https://google.com"]) as Hsearch.
      { unfold VideoDownloader.search_results. rewrite Hs. reflexivity. }
      match goal with
      | |- context [bind (VideoDownloader.search_results query) ?k] =>
          assert (returns (k links) /\ emits fetch_event (k links)) as [Hret Hemit]
      end.
      { split.
        - apply returns_bind; [apply filter_reel_links_soft|]. intros reel_links.
          apply returns_bind; [apply returns_emit | intros; apply returns_ret].
        - apply emits_bind; [apply filter_reel_links_soft|]. intros reel_links.
          apply emits_bind; [apply emits_emit; reflexivity | intros; apply emits_ret]. }
      destruct (Hret (mk_world (files w) later)) as [found Hfound].
      erewrite try_except_Return.
      2:{ rewrite (bind_outcome _ _ _ _ _ _ Hsearch). cbn [res]. exact Hfound. }
      rewrite (bind_outcome _ _ _ _ _ _ Hsearch). cbn [events].
      eexists. split; [reflexivity|]. apply Hemit.
Qed.

End DownloaderEffects.

Arguments VideoDownloader.download_video : simpl never.
Arguments VideoDownloader.find_video_links : simpl never.

(** [download_videos] never raises; each call makes exactly one round trip
    to the search surface and never sleeps. *)
Lemma download_videos_soft env download_path keyword max_videos w :
  (exists downloaded,
     res (VideoDownloader.download_videos env download_path keyword max_videos w)
     = Return downloaded)
  /\ exists evs,
       events (VideoDownloader.download_videos env download_path keyword max_videos w)
       = DriverGet "https://google.com" :: evs
       /\ forallb fetch_event evs = true.
Proof.
  unfold VideoDownloader.download_videos.
  destruct (find_video_links_soft keyword max_videos w)
    as [[links Hlinks] [logs [Hevents Hlogs]]].
  match goal with
  | |- context [bind (VideoDownloader.find_video_links keyword max_videos) ?k] =>
      assert (returns (k links) /\ emits fetch_event (k links)) as [Hret Hemit]
  end.
  { assert (Forall (fun task => returns task /\ emits fetch_event task)
              (map (fun '(index, link) =>
                      VideoDownloader.download_video env download_path link index)
                   (VideoDownloader.enumerate links 1))) as Htasks.
    { apply Forall_forall. intros task Hin. apply in_map_iff in Hin.
      destruct Hin as [[index link] [<- _]]. apply download_video_soft. }
    destruct (gather_soft _ Htasks) as [Hg1 Hg2]. split.
    - apply returns_bind; [exact Hg1 | intros; apply returns_ret].
    - apply emits_bind; [exact Hg2 | intros; apply emits_ret]. }
  split.
  - rewrite (res_bind_Return _ _ _ _ Hlinks). apply Hret.
  - rewrite (events_bind_Return _ _ _ _ Hlinks), Hevents.
    eexists. split; [reflexivity|].
    rewrite forallb_app, Hlogs. apply Hemit.
Qed.

Lemma download_videos_one_attempt env download_path keyword max_videos w :
  attempts (events (VideoDownloader.download_videos env download_path keyword
                      max_videos w)) = 1%nat.
Proof.
  destruct (download_videos_soft env download_path keyword max_videos w)
    as [_ [evs [-> Hevs]]].
  change (DriverGet "https://google.com" :: evs)
    with ([DriverGet "https://google.com"] ++ evs).
  rewrite attempts_app, (attempts_fetch_events evs Hevs). reflexivity.
Qed.

Section RetryLoop.

(** The call of line 409, whatever it is. *)
Variable download_videos : M (list string).

Lemma log_each_outcome videos w :
  Main.log_each videos w = mk_outcome (Return tt) w (map (Log INFO) videos).
Proof.
  revert w. induction videos as [|video rest IH]; intros w; [reflexivity|].
  cbn [Main.log_each]. unfold bind, logger, emit. cbn [res after events].
  rewrite IH. reflexivity.
Qed.

Lemma found_branch (files : list string) w :
  (logger INFO "Downloaded Videos:" ;; Main.log_each files ;; ret (files, true)) w
  = mk_outcome (Return (files, true)) w
      (Log INFO "Downloaded Videos:" :: map (Log INFO) files).
Proof.
  unfold bind, logger, emit. cbn [res after events].
  rewrite log_each_outcome. cbn [res after events ret].
  rewrite List.app_nil_r. reflexivity.
Qed.

(** An attempt that returns a non-empty list ends the loop. *)
Lemma retry_loop_found attempt later downloaded_files w video videos :
  res (download_videos w) = Return (video :: videos) ->
  Main.retry_loop download_videos (attempt :: later) downloaded_files w
  = mk_outcome (Return (video :: videos)) (after (download_videos w))
      (events (download_videos w)
       ++ Log INFO "Downloaded Videos:" :: map (Log INFO) (video :: videos)).
Proof.
  intros H. cbn [Main.retry_loop].
  erewrite bind_outcome.
  2:{ apply try_except_outcome. rewrite (bind_Return _ _ _ _ H).
      cbn [Main.nonempty]. rewrite found_branch. cbn [res after events].
      reflexivity. }
  cbn [fst snd ret res after events]. rewrite List.app_nil_r. reflexivity.
Qed.

(** An attempt that returns the empty list is followed at once by the
    next one. *)
Lemma retry_loop_empty attempt later downloaded_files w :
  res (download_videos w) = Return [] ->
  Main.retry_loop download_videos (attempt :: later) downloaded_files w
  = let next := Main.retry_loop download_videos later [] (after (download_videos w)) in
    mk_outcome (res next) (after next)
      ((events (download_videos w)
        ++ [Log WARNING ("No videos downloaded on attempt " ++ Str.of_nat (attempt + 1))])
       ++ events next).
Proof.
  intros H. cbn [Main.retry_loop].
  erewrite bind_outcome.
  2:{ apply try_except_outcome. erewrite (bind_Return _ _ _ _ H).
      cbn [Main.nonempty]. unfold bind at 1, logger, emit.
      cbn [res after events ret]. reflexivity. }
  cbn [fst snd]. reflexivity.
Qed.

(** An attempt that raises is logged and followed by the back-off sleep. *)
Lemma retry_loop_raised attempt later downloaded_files w e :
  res (download_videos w) = Raise e ->
  Main.retry_loop download_videos (attempt :: later) downloaded_files w
  = let next := Main.retry_loop download_videos later downloaded_files
                  (after (download_videos w)) in
    mk_outcome (res next) (after next)
      ((events (download_videos w)
        ++ [Log ERROR ("Retry attempt " ++ Str.of_nat (attempt + 1) ++ " failed: "
                       ++ str_of_exn e); Sleep 3])
       ++ events next).
Proof.
  intros H. cbn [Main.retry_loop].
  erewrite bind_outcome.
  2:{ erewrite try_except_Raise.
      2:{ rewrite (res_bind_Raise _ _ _ _ H). reflexivity. }
      2:{ reflexivity. }
      rewrite (events_bind_Raise _ _ _ _ H), (after_bind_Raise _ _ _ _ H).
      unfold bind, logger, emit. cbn [res after events ret]. reflexivity. }
  cbn [fst snd]. reflexivity.
Qed.

End RetryLoop.

Lemma attempts_logs evs level msg videos :
  attempts (evs ++ Log level msg :: map (Log INFO) videos) = attempts evs.
Proof.
  rewrite attempts_app.
  rewrite (attempts_fetch_events (Log level msg :: map (Log INFO) videos)); [lia|].
  simpl. induction videos; simpl; auto.
Qed.

Lemma attempts_log evs level msg next :
  attempts ((evs ++ [Log level msg]) ++ next) = (attempts evs + attempts next)%nat.
Proof. rewrite !attempts_app. simpl. unfold attempts at 2. simpl. lia. Qed.

Section ThreeAttempts.

(** An attempt that never raises and makes one search. *)
Variable attempt : M (list string).
Hypothesis attempt_returns : returns attempt.
Hypothesis attempt_searches_once : forall w, attempts (events (attempt w)) = 1%nat.

Lemma retry_loop_three w0 :
  let o1 := attempt w0 in
  let o2 := attempt (after o1) in
  let o3 := attempt (after o2) in
  let loop := Main.retry_loop attempt [0; 1; 2]%nat [] w0 in
  res loop = (if found o1 then res o1 else if found o2 then res o2 else res o3)
  /\ attempts (events loop)
     = (if found o1 then 1 else if found o2 then 2 else 3)%nat.
Proof.
  intros o1 o2 o3 loop. subst loop. unfold found.
  destruct (attempt_returns w0) as [l1 H1]. fold o1 in H1. rewrite H1.
  destruct l1 as [|v1 l1].
  2:{ subst o1. rewrite (retry_loop_found attempt _ _ _ _ _ _ H1). cbn [res events].
      rewrite attempts_logs. split; [reflexivity | apply attempt_searches_once]. }
  subst o1. rewrite (retry_loop_empty attempt _ _ _ _ H1). cbn zeta. cbn [res events].
  rewrite attempts_log, attempt_searches_once.
  destruct (attempt_returns (after (attempt w0))) as [l2 H2]. fold o2 in H2. rewrite H2.
  destruct l2 as [|v2 l2].
  2:{ subst o2. rewrite (retry_loop_found attempt _ _ _ _ _ _ H2). cbn [res events].
      rewrite attempts_logs, attempt_searches_once. split; reflexivity. }
  subst o2. rewrite (retry_loop_empty attempt _ _ _ _ H2). cbn zeta. cbn [res events].
  rewrite attempts_log, attempt_searches_once.
  destruct (attempt_returns (after (attempt (after (attempt w0))))) as [l3 H3].
  fold o3 in H3. rewrite H3.
  destruct l3 as [|v3 l3].
  2:{ subst o3. rewrite (retry_loop_found attempt _ _ _ _ _ _ H3). cbn [res events].
      rewrite attempts_logs, attempt_searches_once. split; reflexivity. }
  subst o3. rewrite (retry_loop_empty attempt _ _ _ _ H3). cbn zeta.
  cbn [Main.retry_loop ret res events].
  rewrite attempts_log, attempt_searches_once. split; reflexivity.
Qed.

End ThreeAttempts.

(** The discovery phase is the loop followed by the release of the
    browser session. *)
Lemma discovery_phase_outcome env keyword w downloaded :
  res (Main.retry_loop
         (VideoDownloader.download_videos env Main.download_path keyword Main.MAX_VIDEOS)
         [0; 1; 2]%nat [] w) = Return downloaded ->
  Main.discovery_phase env keyword w
  = mk_outcome (Return downloaded)
      (after (Main.retry_loop
                (VideoDownloader.download_videos env Main.download_path keyword
                   Main.MAX_VIDEOS) [0; 1; 2]%nat [] w))
      (events (Main.retry_loop
                 (VideoDownloader.download_videos env Main.download_path keyword
                    Main.MAX_VIDEOS) [0; 1; 2]%nat [] w)
       ++ [DriverQuit]).
Proof.
  intros H. unfold Main.discovery_phase, try_finally.
  change (seq 0 Main.max_retries) with [0; 1; 2]%nat.
  rewrite (try_except_Return _ _ _ _ _ H).
  unfold VideoDownloader.close, emit. cbn [res after events]. rewrite H. reflexivity.
Qed.

(** C3. The discovery phase calls [download_videos] at most three times
    and stops at the first call that returns a non-empty list: with [o1],
    [o2], [o3] the three calls one after the other, the number of attempts
    made is 1 when [o1] found downloads, else 2 when [o2] did, else 3, and
    the result is the list of the attempt that ended the loop.  When the
    first two attempts return the empty list and the third a non-empty
    one, exactly three attempts are made. *)
Theorem retry_loop_attempts :
  forall (env : environment) (keyword : string) (w0 : world),
    let download_videos :=
      VideoDownloader.download_videos env Main.download_path keyword Main.MAX_VIDEOS in
    let o1 := download_videos w0 in
    let o2 := download_videos (after o1) in
    let o3 := download_videos (after o2) in
    let o := Main.discovery_phase env keyword w0 in
    (attempts (events o) <= 3)%nat
    /\ attempts (events o) = (if found o1 then 1 else if found o2 then 2 else 3)%nat
    /\ res o = (if found o1 then res o1 else if found o2 then res o2 else res o3)
    /\ (res o1 = Return [] -> res o2 = Return [] ->
        forall video videos, res o3 = Return (video :: videos) ->
          attempts (events o) = 3%nat /\ res o = Return (video :: videos)).
Proof.
  intros env keyword w0 download_videos o1 o2 o3 o.
  assert (returns download_videos) as Hret.
  { intros w. apply download_videos_soft. }
  assert (forall w, attempts (events (download_videos w)) = 1%nat) as Hone.
  { intros w. apply download_videos_one_attempt. }
  destruct (retry_loop_three download_videos Hret Hone w0) as [Hres Hattempts].
  fold o1 o2 o3 in Hres, Hattempts.
  assert (exists downloaded,
            res (Main.retry_loop download_videos [0; 1; 2]%nat [] w0) = Return downloaded)
    as [downloaded Hloop].
  { rewrite Hres.
    destruct (Hret w0) as [l1 H1]. destruct (Hret (after o1)) as [l2 H2].
    destruct (Hret (after o2)) as [l3 H3]. fold o1 in H1. fold o2 in H2. fold o3 in H3.
    destruct (found o1); [eauto|]. destruct (found o2); eauto. }
  assert (attempts (events o) = (if found o1 then 1 else if found o2 then 2 else 3)%nat
          /\ res o = (if found o1 then res o1 else if found o2 then res o2 else res o3))
    as [Hcount Hresult].
  { subst o. rewrite (discovery_phase_outcome env keyword w0 downloaded Hloop).
    cbn [res events]. rewrite attempts_app. fold download_videos.
    rewrite Hattempts, <- Hres, Hloop. split; [| reflexivity].
    change (attempts [DriverQuit]) with 0%nat. lia. }
  split; [| split; [exact Hcount | split; [exact Hresult |]]].
  - rewrite Hcount. destruct (found o1); [lia|]. destruct (found o2); lia.
  - intros H1 H2 video videos H3. rewrite Hcount, Hresult. unfold found.
    rewrite H1, H2. split; [reflexivity | exact H3].
Qed.

Lemma retry_loop_attempts_witness :
  attempts (events (Main.discovery_phase instagram "sunset" third_time_lucky)) = 3%nat
  /\ res (Main.discovery_phase instagram "sunset" third_time_lucky)
     = Return [first_clip].
Proof.
  apply (proj2 (proj2 (proj2
           (retry_loop_attempts instagram "sunset" third_time_lucky)))).
  - reflexivity.
  - reflexivity.
  - reflexivity.
Defined.

(** With an attempt that never raises, the loop never reaches the handler
    that sleeps. *)
Lemma retry_loop_never_sleeps (attempt : M (list string)) :
  returns attempt -> emits not_sleep attempt ->
  forall todo downloaded_files,
    emits not_sleep (Main.retry_loop attempt todo downloaded_files).
Proof.
  intros Hret Hemit todo.
  induction todo as [|n later IH]; intros downloaded_files w; [reflexivity|].
  destruct (Hret w) as [[|video videos] Hl].
  - rewrite (retry_loop_empty attempt n later downloaded_files w Hl).
    cbn zeta. cbn [events]. rewrite !forallb_app, (Hemit w), IH. reflexivity.
  - rewrite (retry_loop_found attempt n later downloaded_files w video videos Hl).
    cbn [events]. rewrite forallb_app, (Hemit w). cbn [forallb andb].
    clear. simpl. induction videos; simpl; auto.
Qed.

(** C4 fails on the code: the back-off sleep is in the handler of a raised
    attempt only.  [download_videos] absorbs every failure and returns the
    empty list instead, so the discovery phase never sleeps; when the
    search surface shows no link three times, the three attempts follow
    each other with a log line in between and no sleep. *)
Theorem retry_without_backoff :
  (forall (env : environment) (keyword : string) (w : world),
      forallb not_sleep (events (Main.discovery_phase env keyword w)) = true)
  /\ events (Main.discovery_phase instagram "sunset" no_results)
     = [ DriverGet "https://google.com"; Log INFO "Found 0 Reel links";
         Log WARNING "No videos downloaded on attempt 1";
         DriverGet "https://google.com"; Log INFO "Found 0 Reel links";
         Log WARNING "No videos downloaded on attempt 2";
         DriverGet "https://google.com"; Log INFO "Found 0 Reel links";
         Log WARNING "No videos downloaded on attempt 3";
         DriverQuit ].
Proof.
  split; [| vm_compute; reflexivity].
  intros env keyword w.
  set (download_videos :=
         VideoDownloader.download_videos env Main.download_path keyword Main.MAX_VIDEOS).
  assert (returns download_videos) as Hret.
  { intros w'. apply download_videos_soft. }
  assert (emits not_sleep download_videos) as Hemit.
  { intros w'.
    destruct (download_videos_soft env Main.download_path keyword Main.MAX_VIDEOS w')
      as [_ [evs [Hevs Hfetch]]].
    unfold download_videos. rewrite Hevs. cbn [forallb]. 
    change (forallb not_sleep evs) with (forallb (fun ev => negb (is_sleep ev)) evs).
    rewrite (fetch_events_no_sleep evs Hfetch). reflexivity. }
  pose proof (retry_loop_never_sleeps download_videos Hret Hemit [0; 1; 2]%nat [] w)
    as Hloop.
  destruct (retry_loop_three download_videos Hret
              (fun w' => download_videos_one_attempt env Main.download_path keyword
                           Main.MAX_VIDEOS w') w) as [Hres _].
  assert (exists downloaded,
            res (Main.retry_loop download_videos [0; 1; 2]%nat [] w) = Return downloaded)
    as [downloaded Hreturned].
  { rewrite Hres. cbn zeta.
    destruct (Hret w) as [l1 H1].
    destruct (Hret (after (download_videos w))) as [l2 H2].
    destruct (Hret (after (download_videos (after (download_videos w))))) as [l3 H3].
    destruct (found _); [eauto|]. destruct (found _); eauto. }
  rewrite (discovery_phase_outcome env keyword w downloaded Hreturned).
  cbn [events]. rewrite forallb_app. fold download_videos. rewrite Hloop. reflexivity.
Qed.

(** The sibling path: an attempt that raises is followed by the sleep. *)
Lemma retry_sleeps_after_exception (e : exn) (w : world) :
  events (Main.retry_loop (raise e) [0; 1; 2]%nat [] w)
  = [ Log ERROR ("Retry attempt 1 failed: " ++ str_of_exn e); Sleep 3;
      Log ERROR ("Retry attempt 2 failed: " ++ str_of_exn e); Sleep 3;
      Log ERROR ("Retry attempt 3 failed: " ++ str_of_exn e); Sleep 3 ].
Proof. reflexivity. Qed.

(** ** The paths that [download_videos] returns *)

Lemma yields_ret {A} (P : A -> Prop) a : P a -> yields P (ret a).
Proof. intros H w a' Ha. injection Ha as <-. exact H. Qed.

Lemma yields_bind {A B} (P : B -> Prop) (m : M A) (k : A -> M B) :
  (forall a, yields P (k a)) -> yields P (bind m k).
Proof.
  intros Hk w b0 H. unfold bind in H.
  destruct (res (m w)) as [a|e]; [| discriminate H].
  exact (Hk a _ _ H).
Qed.

Lemma yields_try_except {A} (P : A -> Prop) (m : M A) catches handler :
  yields P m -> (forall e, yields P (handler e)) -> yields P (try_except m catches handler).
Proof.
  intros Hm Hh w a H. unfold try_except in H.
  destruct (res (m w)) as [a'|e] eqn:Hr.
  - rewrite Hr in H. exact (Hm _ _ (eq_trans Hr H)).
  - destruct (catches e).
    + exact (Hh e _ _ H).
    + rewrite Hr in H. discriminate H.
Qed.

(** What [download_video] returns is [None] or the target name of its
    index. *)
Lemma download_video_yields env download_path video_url index :
  yields (fun r => r = None \/ exists shortcode, r = Some (target download_path index shortcode))
         (VideoDownloader.download_video env download_path video_url index).
Proof.
  unfold VideoDownloader.download_video.
  apply yields_try_except.
  - apply yields_bind. intros [[|c shortcode]|].
    + apply yields_bind. intros _. apply yields_ret. left. reflexivity.
    + apply yields_bind. intros [|]; [| apply yields_ret; left; reflexivity].
      apply yields_bind. intros [|]; [| apply yields_ret; left; reflexivity].
      apply yields_bind. intros size.
      destruct (0 <? size)%Z; [| apply yields_ret; left; reflexivity].
      apply yields_bind. intros _. apply yields_ret. right.
      exists (String c shortcode). reflexivity.
    + apply yields_bind. intros _. apply yields_ret. left. reflexivity.
  - intros e. apply yields_bind. intros _. apply yields_ret. left. reflexivity.
Qed.

Lemma gather_download_yields env download_path links : forall start,
  yields (fun results =>
            Forall2 (fun index r =>
                       r = None
                       \/ exists shortcode, r = Some (target download_path index shortcode))
                    (seq start (List.length links)) results)
         (VideoDownloader.gather
            (map (fun '(index, link) =>
                    VideoDownloader.download_video env download_path link index)
                 (VideoDownloader.enumerate links start))).
Proof.
  induction links as [|link links IH]; intros start w results H.
  - injection H as <-. constructor.
  - change (VideoDownloader.enumerate (link :: links) start)
      with ((start, link) :: VideoDownloader.enumerate links (S start)) in H.
    cbn [map VideoDownloader.gather] in H.
    bind_step H as v Hv. bind_step H as vs Hvs.
    injection H as <-. cbn [List.length seq]. constructor.
    + exact (download_video_yields _ _ _ _ _ _ Hv).
    + exact (IH _ _ _ Hvs).
Qed.

Lemma decimal_lacks_underscore d : lacks "_" (NilEmpty.string_of_uint d) = true.
Proof. induction d; simpl; auto. Qed.

(** Two strings that agree up to their first underscore. *)
Lemma before_first_underscore s1 : forall s2 r1 r2,
  lacks "_" s1 = true -> lacks "_" s2 = true ->
  (s1 ++ String "_" r1 = s2 ++ String "_" r2)%string -> s1 = s2.
Proof.
  induction s1 as [|c1 s1 IH]; intros [|c2 s2] r1 r2 H1 H2 Heq; simpl in *.
  - reflexivity.
  - injection Heq as <- _. discriminate H2.
  - injection Heq as -> _. discriminate H1.
  - injection Heq as <- Heq.
    apply andb_true_iff in H1. apply andb_true_iff in H2.
    f_equal. apply (IH s2 r1 r2); tauto.
Qed.

Lemma append_inv_head (p x y : string) : (p ++ x = p ++ y)%string -> x = y.
Proof. induction p as [|c p IH]; simpl; [trivial|]. intros H. injection H as H. auto. Qed.

Lemma of_nat_inj i j : Str.of_nat i = Str.of_nat j -> i = j.
Proof.
  unfold Str.of_nat. intros H. apply Unsigned.to_uint_inj.
  pose proof (NilEmpty.usu (Nat.to_uint i)) as Hi. rewrite H, NilEmpty.usu in Hi.
  congruence.
Qed.

(** The index is part of the name: targets of different indices differ. *)
Lemma target_inj download_path i j shortcode shortcode' :
  target download_path i shortcode = target download_path j shortcode' -> i = j.
Proof.
  unfold target, os.path_join, VideoDownloader.sanitized_filename. simpl String.prefix.
  intros H.
  assert ((Str.of_nat i ++ String "_" (shortcode ++ ".mp4"))%string
          = (Str.of_nat j ++ String "_" (shortcode' ++ ".mp4"))%string) as Hname.
  { destruct (String.eqb download_path "");
      [| destruct (Str.endswith download_path "/"); apply append_inv_head in H];
      simpl in H; injection H as H; exact H. }
  apply of_nat_inj.
  apply (before_first_underscore _ _ _ _
           (decimal_lacks_underscore _) (decimal_lacks_underscore _) Hname).
Qed.

(** The results that are kept are targets of increasing indices. *)
Lemma keep_truthy_targets download_path indices results :
  Forall2 (fun index r =>
             r = None
             \/ exists shortcode, r = Some (target download_path index shortcode))
          indices results ->
  exists picks : list (nat * string),
    VideoDownloader.keep_truthy results
    = map (fun p => target download_path (fst p) (snd p)) picks
    /\ (forall tail, StronglySorted lt (indices ++ tail) ->
                     StronglySorted lt (map fst picks ++ tail))
    /\ incl (map fst picks) indices.
Proof.
  induction 1 as [|index r indices results Hr _ [picks [Hkeep [Hsorted Hincl]]]].
  - exists []. repeat split; [trivial | apply incl_refl].
  - assert (forall tail, StronglySorted lt ((index :: indices) ++ tail) ->
                         StronglySorted lt (map fst picks ++ tail)) as Hdrop.
    { intros tail Hs. apply Hsorted. inversion Hs. assumption. }
    assert (exists picks' : list (nat * string),
              VideoDownloader.keep_truthy results
              = map (fun p => target download_path (fst p) (snd p)) picks'
              /\ (forall tail, StronglySorted lt ((index :: indices) ++ tail) ->
                               StronglySorted lt (map fst picks' ++ tail))
              /\ incl (map fst picks') (index :: indices)) as Hskip.
    { exists picks. repeat split; [exact Hkeep | exact Hdrop |].
      apply incl_tl. exact Hincl. }
    destruct Hr as [-> | [shortcode ->]]; [exact Hskip|].
    cbn [VideoDownloader.keep_truthy VideoDownloader.truthy].
    destruct (negb (String.eqb (target download_path index shortcode) ""));
      [| exact Hskip].
    exists ((index, shortcode) :: picks). cbn [map fst snd]. repeat split.
    + rewrite Hkeep. reflexivity.
    + intros tail Hs. simpl in Hs. inversion Hs as [|x l Hl Hall]; subst.
      simpl. constructor; [apply Hsorted; assumption|].
      rewrite Forall_forall in Hall |- *. intros x Hx. apply Hall.
      apply in_app_or in Hx. apply in_or_app. destruct Hx as [Hx | Hx]; auto.
    + intros x [<- | Hx]; [left; reflexivity | right; apply Hincl; exact Hx].
Qed.

Lemma seq_sorted n : forall start, StronglySorted lt (seq start n).
Proof.
  induction n as [|n IH]; intros start; simpl; constructor; [apply IH|].
  apply Forall_forall. intros x Hx. apply in_seq in Hx. lia.
Qed.

Lemma sorted_lt_NoDup l : StronglySorted lt l -> NoDup l.
Proof.
  induction 1 as [|x l _ IH Hall]; constructor; [| exact IH].
  intros Hin. rewrite Forall_forall in Hall. specialize (Hall x Hin). lia.
Qed.

(** X8. Whatever the collaborator does, [download_videos] returns at most
    as many paths as links were discovered; the paths are target names
    [instagram_video_<index>_<shortcode>.mp4] in the download directory,
    their indices increase along the list and lie between 1 and the number
    of links, and no two returned paths are equal. *)
Lemma download_videos_paths env download_path keyword max_videos w links downloaded :
  res (VideoDownloader.find_video_links keyword max_videos w) = Return links ->
  res (VideoDownloader.download_videos env download_path keyword max_videos w)
    = Return downloaded ->
  (List.length downloaded <= List.length links)%nat
  /\ NoDup downloaded
  /\ exists picks : list (nat * string),
       downloaded = map (fun p => target download_path (fst p) (snd p)) picks
       /\ StronglySorted lt (map fst picks)
       /\ Forall (fun index => (1 <= index <= List.length links)%nat) (map fst picks).
Proof.
  intros Hlinks H. unfold VideoDownloader.download_videos in H.
  rewrite (res_bind_Return _ _ _ _ Hlinks) in H.
  bind_step H as results Hresults. injection H as <-.
  apply gather_download_yields in Hresults.
  destruct (keep_truthy_targets _ _ _ Hresults) as [picks [Hkeep [Hsorted Hincl]]].
  specialize (Hsorted []). rewrite !List.app_nil_r in Hsorted.
  specialize (Hsorted (seq_sorted _ _)).
  pose proof (sorted_lt_NoDup _ Hsorted) as Hnodup.
  split; [| split].
  - rewrite Hkeep, List.length_map, <- (List.length_map fst picks).
    apply Nat.le_trans with (List.length (seq 1 (List.length links)));
      [apply NoDup_incl_length; assumption | rewrite List.length_seq; lia].
  - rewrite Hkeep. clear Hkeep Hincl Hsorted.
    induction picks as [|[i sc] picks IH]; simpl; constructor.
    + intros Hin. apply in_map_iff in Hin. destruct Hin as [[j sc'] [Heq Hin]].
      simpl in Heq. apply target_inj in Heq. subst j.
      inversion Hnodup as [|x l Hnotin _]; subst. apply Hnotin.
      apply in_map_iff. exists (i, sc'). split; [reflexivity | exact Hin].
    + apply IH. inversion Hnodup. assumption.
  - exists picks. split; [exact Hkeep | split; [exact Hsorted|]].
    apply Forall_forall. intros index Hin. apply Hincl, in_seq in Hin. lia.
Qed.

(** ** Segments of a URL *)

Lemma split_length s : List.length (Str.split "/" s) = S (slashes s).
Proof.
  induction s as [|c s IH]; [reflexivity|].
  cbn [Str.split slashes]. destruct (Ascii.eqb c "/").
  - simpl. rewrite IH. reflexivity.
  - destruct (Str.split "/" s) as [|seg segs]; [discriminate IH|].
    simpl in *. exact IH.
Qed.

Lemma prefix_marker_slashes s : String.prefix "/reel/" s = true -> (2 <= slashes s)%nat.
Proof.
  intros H.
  do 6 (destruct s as [|? s]; [discriminate H|];
        simpl in H;
        match type of H with
        | (if ?d then _ else _) = true => destruct d; [subst | discriminate H]
        end).
  simpl. lia.
Qed.

Lemma contains_marker_slashes s : Str.contains "/reel/" s = true -> (2 <= slashes s)%nat.
Proof.
  induction s as [|c s IH]; intros H.
  - discriminate H.
  - cbn [Str.contains] in H. apply orb_true_iff in H. destruct H as [H | H].
    + apply prefix_marker_slashes. exact H.
    + specialize (IH H). cbn [slashes]. lia.
Qed.

(** A URL with the reel marker has at least three segments, so the index
    [-2] always exists: a URL with fewer than two segments has no marker. *)
Lemma marker_gives_segment video_url :
  Str.contains "/reel/" video_url = true ->
  (3 <= List.length (Str.split "/" video_url))%nat
  /\ exists segment, Str.index_from_end (Str.split "/" video_url) 2 = Some segment.
Proof.
  intros H. apply contains_marker_slashes in H.
  pose proof (split_length video_url) as Hlen. split; [lia|].
  unfold Str.index_from_end.
  destruct (nth_error (List.rev (Str.split "/" video_url)) (2 - 1)) as [segment|] eqn:Hnth.
  - exists segment. reflexivity.
  - apply nth_error_None in Hnth. rewrite List.length_rev in Hnth. simpl in Hnth. lia.
Qed.

(** * Further properties of the code *)

(** ** Link discovery *)

(** The loop of [find_video_links] appends reel links until the list has
    [max_videos] elements, and tests the bound only after an append. *)
Lemma filter_reel_links_result max_videos result_links : forall reel_links w,
  exists logs,
    VideoDownloader.filter_reel_links max_videos result_links reel_links w
    = mk_outcome
        (Return (reel_links
                 ++ firstn (Nat.max 1 (Z.to_nat max_videos - List.length reel_links))
                           (reel_hrefs result_links)))
        w logs.
Proof.
  induction result_links as [|link rest IH]; intros reel_links w.
  - cbn [VideoDownloader.filter_reel_links reel_hrefs].
    rewrite List.firstn_nil, List.app_nil_r. eexists. reflexivity.
  - cbn [VideoDownloader.filter_reel_links reel_hrefs]. destruct link as [[href|]|e].
    + destruct (negb (String.eqb href "") && Str.contains "/reel/" href); [| apply IH].
      destruct (max_videos <=? Z.of_nat (List.length (reel_links ++ [href])))%Z eqn:Hcap.
      * apply Z.leb_le in Hcap. rewrite List.length_app in Hcap. simpl in Hcap.
        replace (Nat.max 1 (Z.to_nat max_videos - List.length reel_links)) with 1%nat by lia.
        eexists. reflexivity.
      * apply Z.leb_gt in Hcap. rewrite List.length_app in Hcap. simpl in Hcap.
        destruct (IH (reel_links ++ [href]) w) as [logs Hlogs]. exists logs.
        rewrite Hlogs, List.length_app. simpl List.length.
        replace (Nat.max 1 (Z.to_nat max_videos - List.length reel_links))
          with (S (Nat.max 1 (Z.to_nat max_videos - (List.length reel_links + 1)))) by lia.
        rewrite <- List.app_assoc. reflexivity.
    + apply IH.
    + destruct (IH reel_links w) as [logs Hlogs]. eexists.
      unfold bind, logger, emit. cbn [res after events]. rewrite Hlogs. reflexivity.
Qed.

(** X1. When the search surface shows its result list, [find_video_links]
    returns the reel links of the page in page order (elements without
    [href], with a stale [href] or without the reel marker are skipped),
    cut after [max_videos] links but never before the first one: the bound
    is tested after a link has been appended, so a bound of zero or less
    still lets one link through.  The page is consumed from the script. *)
Theorem find_video_links_first_reels :
  forall (keyword : string) (max_videos : Z) (result_links : list link_element)
         (later : list search_outcome) (fs : filesystem),
    let o := VideoDownloader.find_video_links keyword max_videos
               (mk_world fs (SearchResults result_links :: later)) in
    res o = Return (firstn (Nat.max 1 (Z.to_nat max_videos)) (reel_hrefs result_links))
    /\ after o = mk_world fs later.
Proof.
  intros keyword max_videos result_links later fs o. subst o.
  unfold VideoDownloader.find_video_links.
  set (query := ("site:instagram.com " ++ keyword ++ " reel")%string).
  assert (VideoDownloader.search_results query
            (mk_world fs (SearchResults result_links :: later))
          = mk_outcome (Return result_links) (mk_world fs later)
              [DriverGet "https://google.com"]) as Hsearch by reflexivity.
  destruct (filter_reel_links_result max_videos result_links [] (mk_world fs later))
    as [logs Hlogs].
  erewrite try_except_outcome.
  2:{ rewrite (bind_outcome _ _ _ _ _ _ Hsearch).
      rewrite (bind_outcome _ _ _ _ _ _ Hlogs).
      unfold bind, logger, emit, ret. cbn [res after events]. reflexivity. }
  cbn [res after List.length app]. rewrite Nat.sub_0_r. split; reflexivity.
Qed.

(** X2. [find_video_links] never raises.  When a step of the search fails
    (the page does not load, the search bar or the result list does not
    appear in time), the failure is logged and the empty list is
    returned, with the files left as they were. *)
Theorem find_video_links_soft_failure :
  forall (keyword : string) (max_videos : Z),
    (forall w, exists links,
        res (VideoDownloader.find_video_links keyword max_videos w) = Return links)
    /\ (forall fs e later,
          VideoDownloader.find_video_links keyword max_videos
            (mk_world fs (SearchFails e :: later))
          = mk_outcome (Return []) (mk_world fs later)
              [DriverGet "https://google.com";
               Log ERROR ("Search failed: " ++ str_of_exn e)])
    /\ (forall fs,
          VideoDownloader.find_video_links keyword max_videos (mk_world fs [])
          = mk_outcome (Return []) (mk_world fs [])
              [DriverGet "https://google.com"; Log ERROR "Search failed: timeout"]).
Proof.
  intros keyword max_videos. split; [| split].
  - intros w. apply find_video_links_soft.
  - intros fs e later. reflexivity.
  - intros fs. reflexivity.
Qed.

(** ** The shortcode of a link *)

Lemma string_app_assoc (a c d : string) : ((a ++ c) ++ d = a ++ (c ++ d))%string.
Proof. induction a as [|x a IH]; simpl; [reflexivity | rewrite IH; reflexivity]. Qed.

Lemma prefix_app (s t : string) : String.prefix s (s ++ t) = true.
Proof.
  induction s as [|c s IH]; [destruct t; reflexivity|]. simpl.
  destruct (ascii_dec c c); [exact IH | congruence].
Qed.

Lemma contains_app (sub a t : string) : Str.contains sub (a ++ sub ++ t) = true.
Proof.
  induction a as [|c a IH].
  - simpl append. destruct (sub ++ t)%string eqn:E; cbn [Str.contains];
      rewrite <- E, prefix_app; reflexivity.
  - simpl append. cbn [Str.contains]. rewrite IH. apply orb_true_r.
Qed.

Lemma split_nonempty sep s : Str.split sep s <> [].
Proof.
  destruct s as [|c s]; cbn [Str.split]; [discriminate|].
  destruct (Ascii.eqb c sep); [discriminate|].
  destruct (Str.split sep s); discriminate.
Qed.

(** Splitting at a separator splits the list of segments. *)
Lemma split_app sep (a t : string) :
  Str.split sep (a ++ String sep t) = Str.split sep a ++ Str.split sep t.
Proof.
  induction a as [|c a IH]; simpl append; cbn [Str.split].
  - rewrite Ascii.eqb_refl. reflexivity.
  - destruct (Ascii.eqb c sep); rewrite IH; [reflexivity|].
    pose proof (split_nonempty sep a) as Hne.
    destruct (Str.split sep a) as [|seg segs]; [congruence | reflexivity].
Qed.

Lemma split_one sep s : lacks sep s = true -> Str.split sep s = [s].
Proof.
  induction s as [|c s IH]; [reflexivity|]. cbn [lacks Str.split]. intros H.
  apply andb_true_iff in H. destruct H as [Hc Hs].
  apply negb_true_iff in Hc. rewrite Hc, (IH Hs). reflexivity.
Qed.

Lemma index_from_end_two {A} (l : list A) (x y : A) :
  Str.index_from_end (l ++ [x; y]) 2 = Some x.
Proof. unfold Str.index_from_end. rewrite List.rev_app_distr. reflexivity. Qed.

(** X3. From a link of the form [<base>/reel/<code>/<tail>], where
    neither the code nor the tail (empty, or a query string) holds a
    slash, the shortcode that [download_video] extracts is the code. *)
Theorem shortcode_of_reel_link :
  forall (base code tail : string) (w : world),
    lacks "/" code = true ->
    lacks "/" tail = true ->
    VideoDownloader.extract_shortcode (base ++ "/reel/" ++ code ++ "/" ++ tail) w
    = mk_outcome (Return (Some code)) w [].
Proof.
  intros base code tail w Hcode Htail. unfold VideoDownloader.extract_shortcode.
  rewrite contains_app.
  change (base ++ "/reel/" ++ code ++ "/" ++ tail)%string
    with (base ++ "/reel" ++ String "/" (code ++ String "/" tail))%string.
  rewrite <- string_app_assoc, !split_app, (split_one _ _ Hcode), (split_one _ _ Htail).
  change ([code] ++ [tail]) with [code; tail]. rewrite index_from_end_two. reflexivity.
Qed.

Lemma shortcode_of_reel_link_witness :
  VideoDownloader.extract_shortcode "https://www.instagram.com/reel/C8xYz12AbCd/?hl=en"
    one_clip
  = mk_outcome (Return (Some "C8xYz12AbCd")) one_clip [].
Proof.
  exact (shortcode_of_reel_link "https://www.instagram.com" "C8xYz12AbCd" "?hl=en"
           one_clip eq_refl eq_refl).
Defined.

(** X4. From a reel link that does not end in a slash,
    [<base>/reel/<code>], the extracted shortcode is not the code but the
    segment before it, the word [reel]: the segment before the last one is
    taken whatever it is. *)
Theorem shortcode_without_trailing_slash :
  forall (base code : string) (w : world),
    lacks "/" code = true ->
    VideoDownloader.extract_shortcode (base ++ "/reel/" ++ code) w
    = mk_outcome (Return (Some "reel")) w [].
Proof.
  intros base code w Hcode. unfold VideoDownloader.extract_shortcode.
  replace (base ++ "/reel/" ++ code)%string with (base ++ "/reel/" ++ code ++ "")%string.
  2:{ f_equal. simpl. do 6 f_equal. clear. induction code; simpl; congruence. }
  rewrite contains_app.
  change (base ++ "/reel/" ++ code ++ "")%string
    with (base ++ String "/" ("reel" ++ String "/" (code ++ "")))%string.
  rewrite !split_app.
  replace (code ++ "")%string with code by (clear; induction code; simpl; congruence).
  rewrite (split_one _ _ Hcode).
  change (Str.split "/" "reel" ++ [code]) with ["reel"; code].
  rewrite index_from_end_two. reflexivity.
Qed.

Lemma shortcode_without_trailing_slash_witness :
  VideoDownloader.extract_shortcode "https://www.instagram.com/reel/C8xYz12AbCd" one_clip
  = mk_outcome (Return (Some "reel")) one_clip [].
Proof.
  exact (shortcode_without_trailing_slash "https://www.instagram.com" "C8xYz12AbCd"
           one_clip eq_refl).
Defined.

(** ** Fetching one video: the soft failures *)

Lemma extract_shortcode_outcome video_url w shortcode :
  res (VideoDownloader.extract_shortcode video_url w) = Return shortcode ->
  VideoDownloader.extract_shortcode video_url w = mk_outcome (Return shortcode) w [].
Proof.
  unfold VideoDownloader.extract_shortcode.
  destruct (Str.contains "/reel/" video_url).
  - destruct (Str.index_from_end (Str.split "/" video_url) 2); [| discriminate].
    unfold ret. simpl. congruence.
  - unfold ret. simpl. congruence.
Qed.



(** X6. When the collaborator returns without leaving any [.mp4] file in
    the download directory (a post without video), nothing is renamed,
    and, the target not being there, [download_video] returns [None]
    without any error in the log. *)
Theorem download_video_nothing_written :
  forall (env : environment) (download_path video_url : string) (index : nat)
         (w : world) (shortcode : string) (fs : filesystem),
    res (VideoDownloader.extract_shortcode video_url w) = Return (Some shortcode) ->
    shortcode <> "" ->
    download_post env shortcode (files w) = inr fs ->
    find (fun f => Str.endswith f ".mp4") (os.entries download_path fs) = None ->
    os.exists_ (target download_path index shortcode) fs = false ->
    VideoDownloader.download_video env download_path video_url index w
    = mk_outcome (Return None) (mk_world fs (searches w)) [InstaloaderDownload shortcode].
Proof.
  intros env download_path video_url index w shortcode fs Hcode Hnonempty Hpost Hfind
         Habsent.
  apply extract_shortcode_outcome in Hcode.
  destruct shortcode as [|c shortcode]; [congruence|].
  unfold target in Habsent.
  assert (bind (VideoDownloader.instaloader_download env (String c shortcode))
            (fun _ => bind (VideoDownloader.rename_first_mp4 download_path
                              (os.path_join download_path
                                 (VideoDownloader.sanitized_filename index
                                    (String c shortcode))))
                           (fun _ => ret true)) w
          = mk_outcome (Return true) (mk_world fs (searches w))
              [InstaloaderDownload (String c shortcode)]) as Hinner.
  { unfold bind, VideoDownloader.instaloader_download, VideoDownloader.rename_first_mp4,
      bind, os.listdir, ret.
    rewrite Hpost. cbn [res after events files searches]. rewrite Hfind. reflexivity. }
  unfold VideoDownloader.download_video.
  erewrite try_except_outcome; [reflexivity|].
  rewrite (bind_outcome _ _ _ _ _ _ Hcode). cbn beta iota.
  rewrite (bind_outcome _ _ _ _ _ _ (try_except_outcome _ _ _ _ _ _ _ Hinner)).
  cbn beta iota. unfold bind, os.path_exists, ret. cbn [res after events files].
  rewrite Habsent. reflexivity.
Qed.

(** A library that answers for a post without video: nothing is written. *)
Lemma download_video_nothing_written_witness :
  VideoDownloader.download_video
    (mk_environment (fun _ fs => inr fs) (fun _ _ _ => Responds granted_slot)
       (fun _ _ => Responds granted_slot) (fun _ _ _ _ _ => Responds created_post))
    "instagram_videos" reel_AAA 1 (mk_world [] [])
  = mk_outcome (Return None) (mk_world [] []) [InstaloaderDownload "AAA"].
Proof.
  apply (download_video_nothing_written _ "instagram_videos" reel_AAA 1 (mk_world [] [])
           "AAA" []).
  - reflexivity.
  - discriminate.
  - reflexivity.
  - reflexivity.
  - reflexivity.
Defined.

(** X7. [download_video] never raises, whatever the link, the collaborator
    and the files are, and all it causes are log lines and the call of the
    collaborator: no search, no request to the remote API, no sleep. *)
Theorem download_video_never_raises :
  forall (env : environment) (download_path video_url : string) (index : nat)
         (w : world),
    (exists r, res (VideoDownloader.download_video env download_path video_url index w)
               = Return r)
    /\ forallb fetch_event
         (events (VideoDownloader.download_video env download_path video_url index w))
       = true.
Proof.
  intros env download_path video_url index w.
  destruct (download_video_soft env download_path video_url index) as [Hret Hemit].
  split; [apply Hret | apply Hemit].
Qed.

(** ** Fetching all videos *)

Lemma download_videos_paths_witness :
  (List.length [first_clip; second_clip] <= List.length [reel_AAA; reel_BBB])%nat
  /\ NoDup [first_clip; second_clip]
  /\ exists picks : list (nat * string),
       [first_clip; second_clip]
       = map (fun p => target "instagram_videos" (fst p) (snd p)) picks
       /\ StronglySorted lt (map fst picks)
       /\ Forall (fun index => (1 <= index <= List.length [reel_AAA; reel_BBB])%nat)
                 (map fst picks).
Proof.
  apply (download_videos_paths instagram "instagram_videos" "sunset" 5
           two_reels [reel_AAA; reel_BBB] [first_clip; second_clip]).
  - reflexivity.
  - vm_compute. reflexivity.
Defined.

(** X9. When discovery gives no link, [download_videos] returns the empty
    list without a single fetch: its outcome is the one of
    [find_video_links], so the collaborator is not called and no file is
    touched. *)
Theorem download_videos_without_links :
  forall (env : environment) (download_path keyword : string) (max_videos : Z)
         (w : world),
    res (VideoDownloader.find_video_links keyword max_videos w) = Return [] ->
    VideoDownloader.download_videos env download_path keyword max_videos w
    = VideoDownloader.find_video_links keyword max_videos w.
Proof.
  intros env download_path keyword max_videos w Hnone.
  unfold VideoDownloader.download_videos.
  rewrite (bind_Return _ _ _ _ Hnone).
  cbn [VideoDownloader.enumerate List.length seq combine map VideoDownloader.gather].
  unfold bind, ret. cbn [res after events VideoDownloader.keep_truthy].
  rewrite List.app_nil_r, <- Hnone.
  destruct (VideoDownloader.find_video_links keyword max_videos w). reflexivity.
Qed.

Lemma download_videos_without_links_witness :
  VideoDownloader.download_videos instagram "instagram_videos" "sunset" 5 no_results
  = VideoDownloader.find_video_links "sunset" 5 no_results.
Proof.
  apply (download_videos_without_links instagram "instagram_videos" "sunset" 5 no_results).
  reflexivity.
Defined.

(** X10. [download_videos] never raises, and each call makes exactly one
    round trip to the search surface; everything else it causes are log
    lines and calls of the collaborator. *)
Theorem download_videos_never_raises :
  forall (env : environment) (download_path keyword : string) (max_videos : Z)
         (w : world),
    (exists downloaded,
        res (VideoDownloader.download_videos env download_path keyword max_videos w)
        = Return downloaded)
    /\ exists evs,
         events (VideoDownloader.download_videos env download_path keyword max_videos w)
         = DriverGet "https://google.com" :: evs
         /\ forallb fetch_event evs = true.
Proof.
  intros env download_path keyword max_videos w. apply download_videos_soft.
Qed.

(** ** The steps of the upload pipeline *)

Lemma generate_file_hash_outcome file_path w content :
  os.lookup file_path (files w) = Some content ->
  VideoUploader.generate_file_hash file_path w
  = mk_outcome (Return (hashlib.sha256_hexdigest content)) w [].
Proof.
  intros Hfile. unfold VideoUploader.generate_file_hash, bind, os.open_rb, ret.
  rewrite Hfile. cbn [res after events].
  rewrite read_blocks_update by (try apply new_buffered; lia). reflexivity.
Qed.

Lemma path_getsize_outcome file_path w content :
  os.lookup file_path (files w) = Some content ->
  os.path_getsize file_path w
  = mk_outcome (Return (Z.of_nat (List.length content))) w [].
Proof. intros Hfile. unfold os.path_getsize. rewrite Hfile. reflexivity. Qed.

(** X11. For a file that exists, when the remote API answers the slot
    request without an error status and with a JSON object,
    [get_upload_url] sends one request, which carries the SHA-256 digest
    of the content and its length in bytes, and returns the [url] and
    [hash] entries of the answer, [None] standing for an entry that is not
    there.  The world is left as it was. *)
Theorem get_upload_url_slot :
  forall (env : environment) (file_path : string) (w : world) (content : bytes)
         (r : response) (d : list (string * pyval)),
    os.lookup file_path (files w) = Some content ->
    remote_get env "https://api.socialverseapp.com/posts/generate-upload-url"
      (hashlib.sha256_hexdigest content) (Z.of_nat (List.length content)) = Responds r ->
    VideoUploader.is_error_status r = false ->
    decoded r = Some (PDict d) ->
    VideoUploader.get_upload_url env file_path w
    = mk_outcome
        (Return (VideoUploader.mk_upload_info (dict_get d "url") (dict_get d "hash")))
        w
        [ HttpGet "https://api.socialverseapp.com/posts/generate-upload-url"
            (hashlib.sha256_hexdigest content) (Z.of_nat (List.length content));
          Print "upload data";
          Log INFO ("Upload URL generated for file: " ++ file_path) ].
Proof.
  intros env file_path w content r d Hfile Hremote Hstatus Hdecoded.
  unfold VideoUploader.get_upload_url.
  erewrite try_except_outcome; [reflexivity|].
  unfold VideoUploader.slot_request_steps.
  rewrite (bind_outcome _ _ _ _ _ _ (generate_file_hash_outcome _ _ _ Hfile)).
  rewrite (bind_outcome _ _ _ _ _ _ (path_getsize_outcome _ _ _ Hfile)).
  cbn zeta.
  change (VideoUploader.base_url ++ "/posts/generate-upload-url")%string
    with "https://api.socialverseapp.com/posts/generate-upload-url".
  assert (VideoUploader.requests_get env
            "https://api.socialverseapp.com/posts/generate-upload-url"
            (hashlib.sha256_hexdigest content) (Z.of_nat (List.length content)) w
          = mk_outcome (Return r) w
              [HttpGet "https://api.socialverseapp.com/posts/generate-upload-url"
                 (hashlib.sha256_hexdigest content) (Z.of_nat (List.length content))])
    as Hget.
  { unfold VideoUploader.requests_get, bind, emit. cbn [res after events].
    rewrite Hremote. reflexivity. }
  rewrite (bind_outcome _ _ _ _ _ _ Hget).
  assert (VideoUploader.raise_for_status r w = mk_outcome (Return tt) w []) as Hok.
  { unfold VideoUploader.raise_for_status. rewrite Hstatus. reflexivity. }
  assert (VideoUploader.json r w = mk_outcome (Return (PDict d)) w []) as Hjson.
  { unfold VideoUploader.json. rewrite Hdecoded. reflexivity. }
  rewrite (bind_outcome _ _ _ _ _ _ Hok).
  rewrite (bind_outcome _ _ _ _ _ _ Hjson).
  rewrite (bind_outcome _ _ _ _ _ _ Hjson).
  rewrite (bind_outcome _ _ _ _ _ _ (eq_refl : emit (Print "upload data") w = _)).
  rewrite (bind_outcome _ _ _ _ _ _
             (eq_refl : logger INFO ("Upload URL generated for file: " ++ file_path) w = _)).
  rewrite (bind_outcome _ _ _ _ _ _
             (eq_refl : VideoUploader.get (PDict d) "url" w
                        = mk_outcome (Return (dict_get d "url")) w [])).
  rewrite (bind_outcome _ _ _ _ _ _
             (eq_refl : VideoUploader.get (PDict d) "hash" w
                        = mk_outcome (Return (dict_get d "hash")) w [])).
  reflexivity.
Qed.

Lemma get_upload_url_slot_witness :
  VideoUploader.get_upload_url refusing_transfer "clip.mp4" one_clip
  = mk_outcome
      (Return (VideoUploader.mk_upload_info (PStr "https://storage.example/slot")
                 (PStr "abc")))
      one_clip
      [ HttpGet "https://api.socialverseapp.com/posts/generate-upload-url"
          (hashlib.sha256_hexdigest (b "abc")) 3;
        Print "upload data";
        Log INFO "Upload URL generated for file: clip.mp4" ].
Proof.
  apply (get_upload_url_slot refusing_transfer "clip.mp4" one_clip (b "abc") granted_slot
           [("url", PStr "https://storage.example/slot"); ("hash", PStr "abc")]).
  - reflexivity.
  - reflexivity.
  - reflexivity.
  - reflexivity.
Defined.

(** X12. For a file that does not exist, [get_upload_url] raises the
    error of [open]; no request is sent, and nothing is logged, since the
    handler is for request errors only. *)
Theorem get_upload_url_missing_file :
  forall (env : environment) (file_path : string) (w : world),
    os.lookup file_path (files w) = None ->
    VideoUploader.get_upload_url env file_path w
    = mk_outcome (Raise (OSError "No such file or directory")) w [].
Proof.
  intros env file_path w Hmissing.
  assert (VideoUploader.slot_request_steps env file_path w
          = mk_outcome (Raise (OSError "No such file or directory")) w []) as Hsteps.
  { unfold VideoUploader.slot_request_steps.
    apply bind_raise_outcome.
    unfold VideoUploader.generate_file_hash. apply bind_raise_outcome.
    unfold os.open_rb. rewrite Hmissing. reflexivity. }
  unfold VideoUploader.get_upload_url, try_except. rewrite Hsteps. reflexivity.
Qed.

Lemma get_upload_url_missing_file_witness :
  VideoUploader.get_upload_url refusing_transfer "gone.mp4" one_clip
  = mk_outcome (Raise (OSError "No such file or directory")) one_clip [].
Proof.
  apply (get_upload_url_missing_file refusing_transfer "gone.mp4" one_clip). reflexivity.
Defined.

(** X13. For a file that exists, [upload_video] never raises: it sends the
    content of the file in one PUT and returns [True] when the URL is a
    string and the answer has no error status, [False] in every other
    case (a 4xx or 5xx answer, a failed request, a URL that is not a
    string, such as the [None] of a slot without [url]).  For a file that
    does not exist it raises the error of [open] instead of returning
    [False], and sends nothing. *)
Theorem upload_video_result :
  forall (env : environment) (file_path : string) (upload_url : pyval) (w : world),
    (forall content,
        os.lookup file_path (files w) = Some content ->
        res (VideoUploader.upload_video env file_path upload_url w)
          = Return (put_succeeds env upload_url content)
        /\ after (VideoUploader.upload_video env file_path upload_url w) = w
        /\ exists logs,
             events (VideoUploader.upload_video env file_path upload_url w)
             = HttpPut upload_url content :: logs
             /\ forallb fetch_event logs = true)
    /\ (os.lookup file_path (files w) = None ->
        VideoUploader.upload_video env file_path upload_url w
        = mk_outcome (Raise (OSError "No such file or directory")) w []).
Proof.
  intros env file_path upload_url w. split.
  - intros content Hfile.
    assert (os.open_rb file_path w = mk_outcome (Return content) w []) as Hopen.
    { unfold os.open_rb. rewrite Hfile. reflexivity. }
    assert (forall e,
               VideoUploader.requests_put env upload_url content w
               = mk_outcome (Raise e) w [HttpPut upload_url content] ->
               is_RequestException e = true ->
               put_succeeds env upload_url content = false ->
               res (VideoUploader.upload_video env file_path upload_url w)
                 = Return (put_succeeds env upload_url content)
               /\ after (VideoUploader.upload_video env file_path upload_url w) = w
               /\ exists logs,
                    events (VideoUploader.upload_video env file_path upload_url w)
                    = HttpPut upload_url content :: logs
                    /\ forallb fetch_event logs = true) as Hfailed.
    { intros e Hput He Hno. rewrite Hno. unfold VideoUploader.upload_video.
      erewrite try_except_raise_outcome;
        [ | rewrite (bind_outcome _ _ _ _ _ _ Hopen);
            rewrite (bind_raise_outcome _ _ _ _ _ _ Hput); reflexivity
          | exact He ].
      destruct e as [kind msg [r|]| | | | | |]; try discriminate He;
        unfold VideoUploader.response_of, VideoUploader.log_response_if;
        unfold bind, logger, emit, ret;
        cbn [res after events app];
        [destruct (VideoUploader.response_truthy (Some r)); cbn [res after events app] |];
        (split; [reflexivity | split; [reflexivity | eexists; split; reflexivity]]). }
    destruct upload_url as [| | |u| |];
      try (apply (Hfailed (RequestException MissingSchema
                             "Invalid URL: No scheme supplied" None));
           reflexivity).
    destruct (remote_put env u content) as [r|kind msg] eqn:Hremote.
    + destruct (VideoUploader.is_error_status r) eqn:Hstatus.
      * assert (put_succeeds env (PStr u) content = false) as Hno.
        { unfold put_succeeds. rewrite Hremote, Hstatus. reflexivity. }
        rewrite Hno. unfold VideoUploader.upload_video.
        assert (VideoUploader.requests_put env (PStr u) content w
                = mk_outcome (Return r) w [HttpPut (PStr u) content]) as Hput.
        { unfold VideoUploader.requests_put, bind, emit, VideoUploader.of_outcome.
          cbn [res after events]. rewrite Hremote. reflexivity. }
        assert (VideoUploader.raise_for_status r w
                = mk_outcome (Raise (RequestException HTTPError "HTTPError" (Some r))) w [])
          as Hraise.
        { unfold VideoUploader.raise_for_status. rewrite Hstatus. reflexivity. }
        erewrite try_except_raise_outcome;
          [ | rewrite (bind_outcome _ _ _ _ _ _ Hopen);
              rewrite (bind_outcome _ _ _ _ _ _ Hput);
              rewrite (bind_raise_outcome _ _ _ _ _ _ Hraise); reflexivity
            | reflexivity ].
        unfold VideoUploader.response_of, VideoUploader.log_response_if,
          VideoUploader.response_truthy.
        unfold bind, logger, emit, ret. cbn [res after events app].
        rewrite Hstatus. cbn [res after events app negb].
        split; [reflexivity | split; [reflexivity | eexists; split; reflexivity]].
      * assert (put_succeeds env (PStr u) content = true) as Hyes.
        { unfold put_succeeds. rewrite Hremote, Hstatus. reflexivity. }
        rewrite Hyes. unfold VideoUploader.upload_video.
        assert (VideoUploader.requests_put env (PStr u) content w
                = mk_outcome (Return r) w [HttpPut (PStr u) content]) as Hput.
        { unfold VideoUploader.requests_put, bind, emit, VideoUploader.of_outcome.
          cbn [res after events]. rewrite Hremote. reflexivity. }
        assert (VideoUploader.raise_for_status r w = mk_outcome (Return tt) w []) as Hok.
        { unfold VideoUploader.raise_for_status. rewrite Hstatus. reflexivity. }
        erewrite try_except_outcome;
          [ | rewrite (bind_outcome _ _ _ _ _ _ Hopen);
              rewrite (bind_outcome _ _ _ _ _ _ Hput);
              rewrite (bind_outcome _ _ _ _ _ _ Hok);
              unfold bind, logger, emit, ret; cbn [res after events app]; reflexivity ].
        cbn [res after events].
        split; [reflexivity | split; [reflexivity | eexists; split; reflexivity]].
    + apply (Hfailed (RequestException kind msg None)).
      * unfold VideoUploader.requests_put, bind, emit, VideoUploader.of_outcome.
        cbn [res after events]. rewrite Hremote. reflexivity.
      * reflexivity.
      * unfold put_succeeds. rewrite Hremote. reflexivity.
  - intros Hmissing.
    assert (os.open_rb file_path w
            = mk_outcome (Raise (OSError "No such file or directory")) w []) as Hopen.
    { unfold os.open_rb. rewrite Hmissing. reflexivity. }
    unfold VideoUploader.upload_video, try_except.
    rewrite (bind_raise_outcome _ _ _ _ _ _ Hopen). reflexivity.
Qed.

Lemma upload_video_result_witness :
  res (VideoUploader.upload_video refusing_transfer "clip.mp4"
         (PStr "https://storage.example/slot") one_clip) = Return false
  /\ after (VideoUploader.upload_video refusing_transfer "clip.mp4"
              (PStr "https://storage.example/slot") one_clip) = one_clip
  /\ exists logs,
       events (VideoUploader.upload_video refusing_transfer "clip.mp4"
                 (PStr "https://storage.example/slot") one_clip)
       = HttpPut (PStr "https://storage.example/slot") (b "abc") :: logs
       /\ forallb fetch_event logs = true.
Proof.
  apply (proj1 (upload_video_result refusing_transfer "clip.mp4"
                  (PStr "https://storage.example/slot") one_clip) (b "abc")).
  reflexivity.
Defined.

Lemma emits_weaken {A} (ok ok' : event -> bool) (m : M A) :
  (forall ev, ok ev = true -> ok' ev = true) -> emits ok m -> emits ok' m.
Proof.
  intros Himp Hm w. specialize (Hm w). rewrite forallb_forall in Hm |- *.
  intros ev Hin. apply Himp, Hm, Hin.
Qed.

Lemma forallb_weaken (ok ok' : event -> bool) evs :
  (forall ev, ok ev = true -> ok' ev = true) ->
  forallb ok evs = true -> forallb ok' evs = true.
Proof.
  intros Himp H. rewrite forallb_forall in H |- *. intros ev Hin. apply Himp, H, Hin.
Qed.

(** A [try] whose body starts with a step that causes one event, whatever
    its result, and goes on quietly. *)
Lemma try_bind_events {A B} (ok : event -> bool) (m : M A) (k : A -> M B)
    catches handler w ev :
  events (m w) = [ev] ->
  (forall a, emits ok (k a)) -> (forall e, emits ok (handler e)) ->
  exists logs,
    events (try_except (bind m k) catches handler w) = ev :: logs
    /\ forallb ok logs = true.
Proof.
  intros Hev Hk Hh.
  assert (exists logs, events (bind m k w) = ev :: logs /\ forallb ok logs = true)
    as [logs [Hlogs Hok]].
  { unfold bind. destruct (res (m w)) as [a|e]; cbn [events]; rewrite Hev.
    - eexists. split; [reflexivity | apply Hk].
    - eexists. split; reflexivity. }
  unfold try_except. destruct (res (bind m k w)) as [b0|e].
  - exists logs. split; assumption.
  - destruct (catches e).
    + cbn [events]. rewrite Hlogs. eexists. split; [reflexivity|].
      rewrite forallb_app, Hok. apply Hh.
    + exists logs. split; assumption.
Qed.

Lemma requests_post_events env url title file_hash public category_id w :
  events (VideoUploader.requests_post env url title file_hash public category_id w)
  = [HttpPost url title file_hash public category_id].
Proof.
  unfold VideoUploader.requests_post, bind, emit, VideoUploader.of_outcome.
  cbn [res after events].
  destruct (remote_post env url title file_hash public category_id); reflexivity.
Qed.

Ltac quiet_step :=
  first
    [ apply (proj2 raise_for_status_quiet) | apply (proj2 (raise_for_status_quiet _))
    | apply (proj2 (json_quiet _)) | apply (proj2 (get_quiet _ _))
    | apply (proj2 (response_of_quiet _)) | apply (proj2 (of_outcome_quiet _))
    | apply (proj2 (generate_file_hash_quiet _))
    | apply emits_bind | apply emits_try_except | apply emits_ret | apply emits_raise
    | apply emits_emit; reflexivity
    | apply (proj2 (open_rb_quiet _)) | apply (proj2 (path_getsize_quiet _))
    | intro ].

Ltac handler_logs :=
  unfold logger, VideoUploader.log_response_if;
  apply emits_bind; [apply emits_emit; reflexivity|]; intros _;
  apply emits_bind; [apply (proj2 (response_of_quiet _))|]; intros [?r|];
  [ apply emits_bind; [| intros; apply emits_raise];
    match goal with
    | |- emits _ (if ?c then _ else _) =>
        destruct c; [apply emits_emit; reflexivity | apply emits_ret]
    end
  | apply emits_bind; [apply emits_ret | intros; apply emits_raise] ].

(** The request of [create_post], then log lines. *)
Lemma create_post_events env file_hash title category_id w :
  exists logs,
    events (VideoUploader.create_post env file_hash title category_id w)
    = HttpPost "https://api.socialverseapp.com/posts" title file_hash false category_id
      :: logs
    /\ forallb is_log logs = true.
Proof.
  unfold VideoUploader.create_post. cbn zeta.
  change (VideoUploader.base_url ++ "/posts")%string
    with "https://api.socialverseapp.com/posts".
  apply try_bind_events.
  - apply requests_post_events.
  - intros r. unfold logger. repeat quiet_step.
  - intros e. handler_logs.
Qed.

(** X14. Whatever the remote side answers, [create_post] sends exactly one
    request: a POST to the posts endpoint with the given title, hash and
    category, and with [is_available_in_public_feed] false; the rest of
    its events are log lines.  The world is left as it was. *)
Theorem create_post_one_private_request :
  forall (env : environment) (file_hash : pyval) (title : string) (category_id : Z)
         (w : world),
    (exists logs,
        events (VideoUploader.create_post env file_hash title category_id w)
        = HttpPost "https://api.socialverseapp.com/posts" title file_hash false category_id
          :: logs
        /\ forallb is_log logs = true)
    /\ after (VideoUploader.create_post env file_hash title category_id w) = w.
Proof.
  intros env file_hash title category_id w.
  split; [apply create_post_events | apply create_post_reads].
Qed.

(** ** The composite publish operation *)

(** X15. When the three steps succeed, [upload_video_to_socialverse]
    returns the record of [create_post] and its events are those of
    [get_upload_url], [upload_video] and [create_post], in this order and
    with nothing in between.  The transfer goes to the [upload_url] of the
    negotiated slot, and the post is created with the [hash] of that slot,
    the one the remote API answered, not with a digest computed again. *)
Theorem publish_runs_three_steps :
  forall (env : environment) (file_path title : string) (category_id : Z) (w : world)
         (info : VideoUploader.upload_info) (post_data : pyval),
    res (VideoUploader.get_upload_url env file_path w) = Return info ->
    res (VideoUploader.upload_video env file_path (VideoUploader.upload_url info) w)
      = Return true ->
    res (VideoUploader.create_post env (VideoUploader.hash info) title category_id w)
      = Return post_data ->
    VideoUploader.upload_video_to_socialverse env file_path title category_id w
    = mk_outcome (Return post_data) w
        (events (VideoUploader.get_upload_url env file_path w)
         ++ events (VideoUploader.upload_video env file_path
                      (VideoUploader.upload_url info) w)
         ++ events (VideoUploader.create_post env (VideoUploader.hash info) title
                      category_id w)).
Proof.
  intros env file_path title category_id w info post_data Hslot Hput Hpost.
  pose proof (proj1 (get_upload_url_reads env file_path) w) as Hw1.
  pose proof (proj1 (upload_video_reads env file_path (VideoUploader.upload_url info)) w)
    as Hw2.
  pose proof (create_post_reads env (VideoUploader.hash info) title category_id w) as Hw3.
  unfold VideoUploader.upload_video_to_socialverse.
  erewrite try_except_outcome; [reflexivity|].
  unfold VideoUploader.publish_steps.
  rewrite (bind_Return _ _ _ _ Hslot), Hw1.
  rewrite (bind_Return _ _ _ _ Hput), Hw2.
  rewrite (bind_outcome _ _ _ _ _ _ (eq_refl : ret tt w = mk_outcome (Return tt) w [])).
  rewrite (bind_Return _ _ _ _ Hpost), Hw3.
  unfold ret. cbn [res after events app]. rewrite List.app_nil_r. reflexivity.
Qed.

Lemma publish_runs_three_steps_witness :
  VideoUploader.upload_video_to_socialverse instagram "clip.mp4" "Instagram Reel: sunset"
    25 one_clip
  = mk_outcome (Return (PDict [("id", PInt 7)])) one_clip
      (events (VideoUploader.get_upload_url instagram "clip.mp4" one_clip)
       ++ events (VideoUploader.upload_video instagram "clip.mp4"
                    (PStr "https://storage.example/slot") one_clip)
       ++ events (VideoUploader.create_post instagram (PStr "abc")
                    "Instagram Reel: sunset" 25 one_clip)).
Proof.
  apply (publish_runs_three_steps instagram "clip.mp4" "Instagram Reel: sunset" 25 one_clip
           (VideoUploader.mk_upload_info (PStr "https://storage.example/slot")
              (PStr "abc"))
           (PDict [("id", PInt 7)])).
  - vm_compute. reflexivity.
  - vm_compute. reflexivity.
  - vm_compute. reflexivity.
Defined.

Lemma get_upload_url_slot_events env file_path :
  emits slot_event (VideoUploader.get_upload_url env file_path).
Proof.
  unfold VideoUploader.get_upload_url, VideoUploader.slot_request_steps,
    VideoUploader.requests_get.
  apply emits_try_except.
  - unfold logger. repeat quiet_step.
  - intros e. handler_logs.
Qed.

(** X16. When the slot negotiation raises, the publish operation stops
    there: no transfer and no post-creation request is sent (its events
    are the request of the negotiation and log lines), and the caller
    gets the same exception when it is a request error, an AttributeError
    otherwise. *)
Theorem publish_stops_at_slot_failure :
  forall (env : environment) (file_path title : string) (category_id : Z) (w : world)
         (e : exn),
    res (VideoUploader.get_upload_url env file_path w) = Raise e ->
    res (VideoUploader.upload_video_to_socialverse env file_path title category_id w)
      = Raise (if is_RequestException e then e
               else AttributeError "object has no attribute 'response'")
    /\ forallb slot_event
         (events (VideoUploader.upload_video_to_socialverse env file_path title
                    category_id w)) = true.
Proof.
  intros env file_path title category_id w e Hslot.
  assert (res (VideoUploader.publish_steps env file_path title category_id w) = Raise e)
    as Hsteps.
  { unfold VideoUploader.publish_steps. apply (res_bind_Raise _ _ _ _ Hslot). }
  split; [apply (publish_Raise _ _ _ _ _ _ Hsteps)|].
  unfold VideoUploader.upload_video_to_socialverse.
  rewrite (try_except_Raise _ _ _ _ _ Hsteps eq_refl). cbn [events].
  rewrite forallb_app. apply andb_true_iff. split.
  - unfold VideoUploader.publish_steps. rewrite (events_bind_Raise _ _ _ _ Hslot).
    apply get_upload_url_slot_events.
  - unfold bind, logger, emit, VideoUploader.response_of, VideoUploader.log_response_if.
    destruct e as [kind msg [r|]| | | | | |]; reflexivity.
Qed.

Lemma publish_stops_at_slot_failure_witness :
  res (VideoUploader.upload_video_to_socialverse
         (answering (mk_response 500 "Internal Server Error" None))
         "clip.mp4" "Instagram Reel: sunset" 25 one_clip)
    = Raise (RequestException HTTPError "HTTPError"
               (Some (mk_response 500 "Internal Server Error" None)))
  /\ forallb slot_event
       (events (VideoUploader.upload_video_to_socialverse
                  (answering (mk_response 500 "Internal Server Error" None))
                  "clip.mp4" "Instagram Reel: sunset" 25 one_clip)) = true.
Proof.
  apply (publish_stops_at_slot_failure
           (answering (mk_response 500 "Internal Server Error" None))
           "clip.mp4" "Instagram Reel: sunset" 25 one_clip
           (RequestException HTTPError "HTTPError"
              (Some (mk_response 500 "Internal Server Error" None)))).
  vm_compute. reflexivity.
Defined.

Lemma upload_video_api_events env file_path upload_url :
  emits (fun ev => api_event ev && not_post ev)
        (VideoUploader.upload_video env file_path upload_url).
Proof.
  unfold VideoUploader.upload_video, VideoUploader.requests_put.
  apply emits_try_except.
  - unfold logger. apply emits_bind; [apply (proj2 (open_rb_quiet _))|]. intros file.
    apply emits_bind.
    + apply emits_bind; [apply emits_emit; reflexivity|]. intros _.
      destruct upload_url; try apply emits_raise. apply (proj2 (of_outcome_quiet _)).
    + intros r. repeat quiet_step.
  - intros e. unfold logger, VideoUploader.log_response_if.
    apply emits_bind; [apply emits_emit; reflexivity|]. intros _.
    apply emits_bind; [apply (proj2 (response_of_quiet _))|]. intros [r|].
    + apply emits_bind; [| intros; apply emits_ret].
      destruct (VideoUploader.response_truthy (Some r));
        [apply emits_emit; reflexivity | apply emits_ret].
    + apply emits_bind; [apply emits_ret | intros; apply emits_ret].
Qed.

(** The events of a publish call pass every test that accepts the requests
    of the three steps, the print and the log lines. *)
Lemma publish_emits (ok : event -> bool) env file_path title category_id :
  (forall ev, slot_event ev = true -> ok ev = true) ->
  (forall url body, ok (HttpPut url body) = true) ->
  (forall h, ok (HttpPost "https://api.socialverseapp.com/posts" title h false category_id)
             = true) ->
  emits ok (VideoUploader.upload_video_to_socialverse env file_path title category_id).
Proof.
  intros Hslot Hput Hpost.
  assert (forall ev, is_log ev = true -> ok ev = true) as Hlog.
  { intros ev Hev. destruct ev; try discriminate Hev. apply Hslot. reflexivity. }
  unfold VideoUploader.upload_video_to_socialverse, VideoUploader.publish_steps.
  apply emits_try_except.
  - apply emits_bind.
    { apply (emits_weaken slot_event); [exact Hslot | apply get_upload_url_slot_events]. }
    intros info. apply emits_bind.
    { apply (emits_weaken (fun ev => api_event ev && not_post ev));
        [| apply upload_video_api_events].
      intros ev Hev. destruct ev; try discriminate Hev;
        first [apply Hslot; reflexivity | apply Hput]. }
    intros success. apply emits_bind.
    { destruct success; [apply emits_ret | apply emits_raise]. }
    intros _. apply emits_bind; [| intros; apply emits_ret].
    intros w.
    destruct (create_post_events env (VideoUploader.hash info) title category_id w)
      as [logs [-> Hlogs]].
    cbn [forallb]. rewrite Hpost. apply (forallb_weaken is_log); assumption.
  - intros e. apply (emits_weaken is_log); [exact Hlog|]. handler_logs.
Qed.

(** X17. A publish call never changes the files, whether it returns or
    raises, and never creates a public post: every post-creation request
    among its events goes to the posts endpoint with the given title and
    category and with [is_available_in_public_feed] false. *)
Theorem publish_private_and_read_only :
  forall (env : environment) (file_path title : string) (category_id : Z) (w : world),
    after (VideoUploader.upload_video_to_socialverse env file_path title category_id w) = w
    /\ forallb (private_post title category_id)
         (events (VideoUploader.upload_video_to_socialverse env file_path title
                    category_id w)) = true.
Proof.
  intros env file_path title category_id w. split.
  - apply upload_video_to_socialverse_reads.
  - apply publish_emits.
    + intros ev Hev. destruct ev; try discriminate Hev; reflexivity.
    + reflexivity.
    + intros h. cbn [private_post]. rewrite (String.eqb_refl title), Z.eqb_refl.
      reflexivity.
Qed.

(** ** The whole run *)

Lemma emits_try_finally {A} (ok : event -> bool) (body : M A) (cleanup : M unit) :
  emits ok body -> emits ok cleanup -> emits ok (try_finally body cleanup).
Proof.
  intros Hb Hc w. unfold try_finally.
  destruct (res (cleanup (after (body w)))); cbn [events];
    rewrite forallb_app, (Hb w); apply Hc.
Qed.

Lemma log_each_emits (ok : event -> bool) videos :
  (forall level msg, ok (Log level msg) = true) -> emits ok (Main.log_each videos).
Proof.
  intros Hlog w. rewrite log_each_outcome. cbn [events].
  induction videos as [|video rest IH]; [reflexivity|]. cbn [map forallb].
  rewrite Hlog. exact IH.
Qed.

(** The loop adds log lines and sleeps to the events of its attempts. *)
Lemma retry_loop_emits (ok : event -> bool) (attempt : M (list string)) :
  (forall level msg, ok (Log level msg) = true) -> ok (Sleep 3) = true ->
  emits ok attempt ->
  forall todo downloaded_files, emits ok (Main.retry_loop attempt todo downloaded_files).
Proof.
  intros Hlog Hsleep Hattempt todo.
  induction todo as [|n later IH]; intros downloaded_files; cbn [Main.retry_loop].
  - apply emits_ret.
  - apply emits_bind.
    + apply emits_try_except.
      * apply emits_bind; [exact Hattempt|]. intros files.
        destruct (Main.nonempty files).
        -- apply emits_bind; [apply emits_emit, Hlog|]. intros _.
           apply emits_bind; [apply log_each_emits, Hlog | intros; apply emits_ret].
        -- apply emits_bind; [apply emits_emit, Hlog | intros; apply emits_ret].
      * intros e. apply emits_bind; [apply emits_emit, Hlog|]. intros _.
        apply emits_bind; [apply emits_emit, Hsleep | intros; apply emits_ret].
    + intros step. destruct (snd step); [apply emits_ret | apply IH].
Qed.

(** The loop never raises, whatever the attempts do. *)
Lemma retry_loop_returns (attempt : M (list string)) todo :
  forall downloaded_files, returns (Main.retry_loop attempt todo downloaded_files).
Proof.
  induction todo as [|n later IH]; intros downloaded_files; cbn [Main.retry_loop].
  - apply returns_ret.
  - apply returns_bind.
    + apply returns_try_except. intros e.
      apply returns_bind; [apply returns_emit|]. intros _.
      apply returns_bind; [apply returns_emit | intros; apply returns_ret].
    + intros step. destruct (snd step); [apply returns_ret | apply IH].
Qed.

Lemma download_videos_emits (ok : event -> bool) env download_path keyword max_videos :
  (forall url, ok (DriverGet url) = true) ->
  (forall ev, fetch_event ev = true -> ok ev = true) ->
  emits ok (VideoDownloader.download_videos env download_path keyword max_videos).
Proof.
  intros Hget Hfetch w.
  destruct (download_videos_soft env download_path keyword max_videos w)
    as [_ [evs [-> Hevs]]].
  cbn [forallb]. rewrite Hget. apply (forallb_weaken fetch_event); assumption.
Qed.

(** The discovery phase: the loop, then the release of the browser. *)
Lemma discovery_phase_events env keyword w :
  exists downloaded evs,
    Main.discovery_phase env keyword w
    = mk_outcome (Return downloaded)
        (after (Main.retry_loop
                  (VideoDownloader.download_videos env Main.download_path keyword
                     Main.MAX_VIDEOS) [0; 1; 2]%nat [] w))
        (evs ++ [DriverQuit])
    /\ forallb (fun ev => negb (is_quit ev) && not_post ev) evs = true.
Proof.
  destruct (retry_loop_returns
              (VideoDownloader.download_videos env Main.download_path keyword
                 Main.MAX_VIDEOS) [0; 1; 2]%nat [] w) as [downloaded Hloop].
  exists downloaded. eexists. split.
  - apply (discovery_phase_outcome env keyword w downloaded Hloop).
  - apply retry_loop_emits; try reflexivity.
    apply download_videos_emits; [reflexivity|].
    intros ev Hev. destruct ev; try discriminate Hev; reflexivity.
Qed.

Lemma upload_each_emits (ok : event -> bool) env keyword :
  (forall video_path,
      emits ok (VideoUploader.upload_video_to_socialverse env video_path
                  ("Instagram Reel: " ++ keyword) 25)) ->
  ok (Print "Video uploaded. Post ID") = true ->
  forall downloaded_files, emits ok (Main.upload_each env keyword downloaded_files).
Proof.
  intros Hpublish Hprint downloaded_files.
  induction downloaded_files as [|video_path rest IH].
  - apply emits_ret.
  - change (emits ok
              (bind (VideoUploader.upload_video_to_socialverse env video_path
                       ("Instagram Reel: " ++ keyword) 25)
                 (fun post_response =>
                    bind (os.remove video_path)
                      (fun _ => bind (VideoUploader.get post_response "id")
                         (fun _ => bind (emit (Print "Video uploaded. Post ID"))
                            (fun _ => Main.upload_each env keyword rest)))))).
    apply emits_bind; [apply Hpublish|]. intros post_response.
    apply emits_bind; [apply remove_silent|]. intros _.
    apply emits_bind; [apply (proj2 (get_quiet _ _))|]. intros _.
    apply emits_bind; [apply emits_emit, Hprint | intros; exact IH].
Qed.

Lemma upload_phase_emits (ok : event -> bool) env keyword :
  (forall video_path,
      emits ok (VideoUploader.upload_video_to_socialverse env video_path
                  ("Instagram Reel: " ++ keyword) 25)) ->
  ok (Print "Video uploaded. Post ID") = true ->
  (forall level msg, ok (Log level msg) = true) ->
  forall downloaded_files, emits ok (Main.upload_phase env keyword downloaded_files).
Proof.
  intros Hpublish Hprint Hlog downloaded_files. unfold Main.upload_phase.
  destruct (Main.nonempty downloaded_files).
  - apply emits_try_except; [apply upload_each_emits; assumption|].
    intros e. apply emits_emit, Hlog.
  - apply emits_emit, Hlog.
Qed.

Lemma quits_app evs1 evs2 : quits (evs1 ++ evs2) = (quits evs1 + quits evs2)%nat.
Proof. unfold quits. rewrite filter_app, List.length_app. reflexivity. Qed.

Lemma quits_none evs :
  forallb (fun ev => negb (is_quit ev)) evs = true -> quits evs = 0%nat.
Proof.
  unfold quits. induction evs as [|ev evs IH]; cbn [forallb filter]; [reflexivity|].
  intros H. apply andb_true_iff in H. destruct H as [Hev Hevs].
  apply negb_true_iff in Hev. rewrite Hev. apply IH, Hevs.
Qed.

(** X18. Once the downloader is constructed, no exception leaves [main],
    whatever the search surface, the download library and the remote API
    do, and the browser session is released exactly once in every run (the
    release itself is taken to return). *)
Theorem main_returns_and_quits_once :
  forall (env : environment) (SEARCH_KEYWORD : string) (w : world),
    res (Main.main env SEARCH_KEYWORD w) = Return tt
    /\ quits (events (Main.main env SEARCH_KEYWORD w)) = 1%nat.
Proof.
  intros env keyword w.
  destruct (discovery_phase_events env keyword w) as [downloaded [evs [Hphase Hevs]]].
  unfold Main.main. rewrite (bind_outcome _ _ _ _ _ _ Hphase). cbn [res events].
  split; [apply upload_phase_outcome|].
  rewrite !quits_app. change (quits [DriverQuit]) with 1%nat.
  rewrite (quits_none evs).
  2:{ apply (forallb_weaken (fun ev => negb (is_quit ev) && not_post ev)); [| exact Hevs].
      intros ev Hev. apply andb_true_iff in Hev. tauto. }
  rewrite quits_none; [reflexivity|].
  apply upload_phase_emits; try reflexivity.
  intros video_path. apply publish_emits; try reflexivity.
  intros ev Hev. destruct ev; try discriminate Hev; reflexivity.
Qed.

(** X19. Every post that a run of [main] creates is private: each
    post-creation request of the run goes to the posts endpoint with the
    title [Instagram Reel: <keyword>], the category 25 and
    [is_available_in_public_feed] false. *)
Theorem main_creates_private_posts :
  forall (env : environment) (SEARCH_KEYWORD : string) (w : world),
    forallb (private_post ("Instagram Reel: " ++ SEARCH_KEYWORD) 25)
      (events (Main.main env SEARCH_KEYWORD w)) = true.
Proof.
  intros env keyword w.
  destruct (discovery_phase_events env keyword w) as [downloaded [evs [Hphase Hevs]]].
  unfold Main.main. rewrite (bind_outcome _ _ _ _ _ _ Hphase). cbn [events].
  rewrite !forallb_app. apply andb_true_iff. split; [apply andb_true_iff; split|].
  - apply (forallb_weaken (fun ev => negb (is_quit ev) && not_post ev)); [| exact Hevs].
    intros ev Hev. destruct ev; try discriminate Hev; reflexivity.
  - reflexivity.
  - apply upload_phase_emits; try reflexivity.
    intros video_path. apply publish_emits.
    + intros ev Hev. destruct ev; try discriminate Hev; reflexivity.
    + reflexivity.
    + intros h. cbn [private_post].
      rewrite (String.eqb_refl ("Instagram Reel: " ++ keyword)). reflexivity.
Qed.

(** With nothing to upload, the upload phase is a single warning. *)
Lemma upload_phase_skipped env keyword (discovery : M (list string)) w :
  res (discovery w) = Return [] ->
  bind discovery (Main.upload_phase env keyword) w
  = mk_outcome (Return tt) (after (discovery w))
      (events (discovery w)
       ++ [Log WARNING "No videos were downloaded, skipping upload."]).
Proof. intros Hnone. rewrite (bind_Return _ _ _ _ Hnone). reflexivity. Qed.

(** X20. When the discovery phase ends without a download, [main] skips
    the upload part: after the discovery phase it only logs a warning; no
    uploader request is sent and no file is removed. *)
Theorem main_skips_upload_without_downloads :
  forall (env : environment) (SEARCH_KEYWORD : string) (w : world),
    res (Main.discovery_phase env SEARCH_KEYWORD w) = Return [] ->
    Main.main env SEARCH_KEYWORD w
    = mk_outcome (Return tt) (after (Main.discovery_phase env SEARCH_KEYWORD w))
        (events (Main.discovery_phase env SEARCH_KEYWORD w)
         ++ [Log WARNING "No videos were downloaded, skipping upload."]).
Proof.
  intros env keyword w Hnone.
  exact (upload_phase_skipped env keyword (Main.discovery_phase env keyword) w Hnone).
Qed.

Lemma main_skips_upload_without_downloads_witness :
  Main.main instagram "sunset" no_results
  = mk_outcome (Return tt) (after (Main.discovery_phase instagram "sunset" no_results))
      (events (Main.discovery_phase instagram "sunset" no_results)
       ++ [Log WARNING "No videos were downloaded, skipping upload."]).
Proof.
  apply (main_skips_upload_without_downloads instagram "sunset" no_results).
  vm_compute. reflexivity.
Defined.




(** X22. The retry loop never raises, whatever its attempts do and
    however many of them it is given: the exception of an attempt does not
    leave the loop. *)
Theorem retry_loop_never_raises :
  forall (download_videos : M (list string)) (attempts : list nat)
         (downloaded_files : list string) (w : world),
    exists files,
      res (Main.retry_loop download_videos attempts downloaded_files w) = Return files.
Proof.
  intros download_videos attempts downloaded_files w.
  apply (retry_loop_returns download_videos attempts downloaded_files w).
Qed.
